(** * A shallow embedding of [Videos/my-projects/video-share.py]

    The program copies a video into a local git repository, writes a
    static HTML player page and a QR image linking to it, and commits the
    result with git.  The model below follows the Python source function
    by function.

    - Python strings are byte strings ([String.string]); the source's
      UTF-8 literals are kept as their bytes.
    - Paths: [pathlib.Path] values are [pypath] records (absolute flag and
      segments, as pathlib parses them); [os.path.abspath] and the kernel's
      resolution are lexical ([resolve]), which agrees with the OS when no
      symbolic link is involved.
    - The process state is a [world]: current directory, the directories
      and files on disk, the answers of the [git] binary (an oracle on the
      argument list and the directory it runs in), standard input, the
      clock, and a log of the observable effects in the order they happen.
    - Python exceptions are the [exn] results of a state-and-error monad
      [M]; [SystemExit] is kept apart because [except Exception] does not
      catch it. *)

From Stdlib Require Import String Ascii List ZArith Bool Lia.
Import ListNotations.
Open Scope string_scope.
Open Scope list_scope.
Open Scope nat_scope.

Local Infix "+++" := String.append (right associativity, at level 60).

(* ------------------------------------------------------------------ *)
(** ** Characters and Python string methods *)

Definition chr (n : nat) : string := String (ascii_of_nat n) EmptyString.
Definition dq : string := chr 34.
Definition nl : string := chr 10.

(** A double-quoted HTML attribute value. *)
Definition q (s : string) : string := dq +++ s +++ dq.

(** [str.isspace] on the ASCII range: tab to carriage return, the four
    separator controls 0x1c-0x1f and the space. *)
Definition is_space (c : ascii) : bool :=
  let n := nat_of_ascii c in ((9 <=? n) && (n <=? 13)) || ((28 <=? n) && (n <=? 32)).

Definition is_dq (c : ascii) : bool := Ascii.eqb c (ascii_of_nat 34).

Fixpoint lstrip_by (p : ascii -> bool) (s : string) : string :=
  match s with
  | EmptyString => EmptyString
  | String c r => if p c then lstrip_by p r else s
  end.

Fixpoint rev_str (s : string) : string :=
  match s with
  | EmptyString => EmptyString
  | String c r => rev_str r +++ String c EmptyString
  end.

(** [s.strip(chars)]: both ends. *)
Definition strip_by (p : ascii -> bool) (s : string) : string :=
  rev_str (lstrip_by p (rev_str (lstrip_by p s))).

(** [s.strip()] *)
Definition strip (s : string) : string := strip_by is_space s.

(** [s.startswith(pre)] *)
Definition startswith (s pre : string) : bool := String.prefix pre s.

(** [s.endswith(suf)] *)
Definition endswith (s suf : string) : bool :=
  let n := String.length s in
  let m := String.length suf in
  (m <=? n) && String.eqb (substring (n - m) m s) suf.

(** [s.replace(old, new)] for a non-empty [old]: every non-overlapping
    occurrence, left to right. *)
Fixpoint replace_fuel (fuel : nat) (old new s : string) : string :=
  match fuel with
  | O => s
  | S f =>
      match s with
      | EmptyString => EmptyString
      | String c r =>
          if String.prefix old s
          then new +++ replace_fuel f old new
                 (substring (String.length old) (String.length s - String.length old) s)
          else String c (replace_fuel f old new r)
      end
  end.

Definition replace (s old new : string) : string :=
  replace_fuel (String.length s) old new s.

(** [s.rfind(".")] as an option *)
Fixpoint rfind_dot_aux (s : string) (i : nat) (acc : option nat) : option nat :=
  match s with
  | EmptyString => acc
  | String c r => rfind_dot_aux r (S i) (if Ascii.eqb c "."%char then Some i else acc)
  end.

Definition rfind_dot (s : string) : option nat := rfind_dot_aux s 0 None.

(** Substring search, used to state what a generated text contains. *)
Definition contains (s t : string) : Prop := exists pre post, s = pre +++ t +++ post.

Fixpoint substringb (t s : string) : bool :=
  match s with
  | EmptyString => String.prefix t EmptyString
  | String _ r => String.prefix t s || substringb t r
  end.

(* ------------------------------------------------------------------ *)
(** ** Paths: [pathlib.PurePosixPath] and [os.path] *)

Record pypath := mkPath { p_abs : bool; p_segs : list string }.

(** [s.split("/")] *)
Fixpoint split_slash (s : string) : list string :=
  match s with
  | EmptyString => [EmptyString]
  | String c r =>
      let rest := split_slash r in
      if Ascii.eqb c "/"%char then EmptyString :: rest
      else match rest with
           | h :: t => String c h :: t
           | [] => [String c EmptyString]
           end
  end.

(** [Path(s)]: empty and ["."] components are dropped, [".."] is kept. *)
Definition parse_path (s : string) : pypath :=
  {| p_abs := String.prefix "/" s;
     p_segs := filter (fun x => negb (String.eqb x "") && negb (String.eqb x "."))
                 (split_slash s) |}.

(** [p / s] *)
Definition py_join (p : pypath) (s : string) : pypath :=
  let r := parse_path s in
  if p_abs r then r else {| p_abs := p_abs p; p_segs := p_segs p ++ p_segs r |}.

(** [str(p)] *)
Definition py_str (p : pypath) : string :=
  match p_abs p, p_segs p with
  | true, segs => "/" +++ String.concat "/" segs
  | false, [] => "."
  | false, segs => String.concat "/" segs
  end.

(** [p.name], [p.parent] *)
Definition py_name (p : pypath) : string := last (p_segs p) "".
Definition py_parent (p : pypath) : pypath :=
  {| p_abs := p_abs p; p_segs := removelast (p_segs p) |}.

(** [p.stem] *)
Definition py_stem (p : pypath) : string :=
  let name := py_name p in
  match rfind_dot name with
  | Some i => if (0 <? i) && (i <? String.length name - 1) then substring 0 i name else name
  | None => name
  end.

(** [p.relative_to(other)]; [None] is the [ValueError]. *)
Fixpoint is_prefix (a b : list string) : bool :=
  match a, b with
  | [], _ => true
  | x :: a', y :: b' => String.eqb x y && is_prefix a' b'
  | _ :: _, [] => false
  end.

Definition relative_to (p other : pypath) : option pypath :=
  if Bool.eqb (p_abs p) (p_abs other) && is_prefix (p_segs other) (p_segs p)
  then Some {| p_abs := false; p_segs := skipn (length (p_segs other)) (p_segs p) |}
  else None.

(** [os.path.abspath] relative to the directory [cwd]: lexical
    normalisation of [".."]. *)
Definition norm_step (acc : list string) (seg : string) : list string :=
  if String.eqb seg ".." then removelast acc else acc ++ [seg].

Definition resolve (cwd : list string) (p : pypath) : list string :=
  fold_left norm_step (p_segs p) (if p_abs p then [] else cwd).

(** [os.path.relpath(path, start)] *)
Fixpoint common_len (a b : list string) : nat :=
  match a, b with
  | x :: a', y :: b' => if String.eqb x y then S (common_len a' b') else 0
  | _, _ => 0
  end.

Definition os_relpath (cwd : list string) (path start : pypath) : string :=
  let path_list := resolve cwd path in
  let start_list := resolve cwd start in
  let i := common_len start_list path_list in
  let rel_list := repeat ".." (length start_list - i) ++ skipn i path_list in
  match rel_list with
  | [] => "."
  | _ => String.concat "/" rel_list
  end.

Fixpoint list_eqb (a b : list string) : bool :=
  match a, b with
  | [], [] => true
  | x :: a', y :: b' => String.eqb x y && list_eqb a' b'
  | _, _ => false
  end.

(* ------------------------------------------------------------------ *)
(** ** [datetime.now().strftime('%Y%m%d_%H%M%S')] *)

Record datetime := mkDT
  { year : nat; month : nat; day : nat; hour : nat; minute : nat; second : nat }.

(** The field ranges of a [datetime] value (years 1 to [MAXYEAR] = 9999). *)
Definition dt_valid (dt : datetime) : Prop :=
  1 <= year dt < 10 * 1000 /\ 1 <= month dt <= 12 /\ 1 <= day dt <= 31 /\
  hour dt <= 23 /\ minute dt <= 59 /\ second dt <= 59.

Definition digit (d : nat) : string := chr (48 + d).
Definition pad2 (n : nat) : string := digit (n / 10 mod 10) +++ digit (n mod 10).
(** [%Y] zero-padded to four digits, as current CPython does on every
    platform. *)
Definition pad4 (n : nat) : string :=
  digit (n / 1000 mod 10) +++ digit (n / 100 mod 10) +++ digit (n / 10 mod 10)
  +++ digit (n mod 10).

Definition strftime (dt : datetime) : string :=
  pad4 (year dt) +++ pad2 (month dt) +++ pad2 (day dt) +++ "_"
  +++ pad2 (hour dt) +++ pad2 (minute dt) +++ pad2 (second dt).

(* ------------------------------------------------------------------ *)
(** ** The process state *)

(** What a file on disk holds: text written by the program, a QR image
    (the string it encodes) or opaque bytes (a video). *)
Inductive content :=
| CText (s : string)
| CQR (data : string)
| CBlob (bytes : string).

(** Observable effects, with paths already resolved to absolute
    segment lists. *)
Inductive event :=
| EMkdir (p : list string)
| EChdir (p : list string)
| EWrite (p : list string) (c : content)
| ECopy (src dst : list string)
| ERun (cwd : list string) (args : list string) (res : option (Z * string * string))
| EPrompt (msg : string)
| EPrint (msg : string).

Record world := mkWorld
  { w_cwd : list string;
    w_dirs : list (list string);
    w_files : list (list string * content);
    (** exit status, stdout and stderr of [git] for an argument list run in
        a directory; [None] when the binary cannot be started *)
    w_git : list string -> list string -> option (Z * string * string);
    w_stdin : list string;
    w_clock : nat -> datetime;
    w_tick : nat;
    w_log : list event }.

Definition set_cwd (w : world) (c : list string) : world :=
  mkWorld c (w_dirs w) (w_files w) (w_git w) (w_stdin w) (w_clock w) (w_tick w) (w_log w).
Definition set_dirs (w : world) (d : list (list string)) : world :=
  mkWorld (w_cwd w) d (w_files w) (w_git w) (w_stdin w) (w_clock w) (w_tick w) (w_log w).
Definition set_files (w : world) (f : list (list string * content)) : world :=
  mkWorld (w_cwd w) (w_dirs w) f (w_git w) (w_stdin w) (w_clock w) (w_tick w) (w_log w).
Definition set_stdin (w : world) (i : list string) : world :=
  mkWorld (w_cwd w) (w_dirs w) (w_files w) (w_git w) i (w_clock w) (w_tick w) (w_log w).
Definition set_tick (w : world) (t : nat) : world :=
  mkWorld (w_cwd w) (w_dirs w) (w_files w) (w_git w) (w_stdin w) (w_clock w) t (w_log w).
Definition log_ev (w : world) (e : event) : world :=
  mkWorld (w_cwd w) (w_dirs w) (w_files w) (w_git w) (w_stdin w) (w_clock w) (w_tick w)
    (w_log w ++ [e]).

Definition is_dir (w : world) (p : list string) : bool :=
  match p with
  | [] => true
  | _ => existsb (list_eqb p) (w_dirs w)
  end.

Fixpoint lookup_file (fs : list (list string * content)) (p : list string) : option content :=
  match fs with
  | [] => None
  | (p', c) :: fs' => if list_eqb p p' then Some c else lookup_file fs' p
  end.

Definition is_file (w : world) (p : list string) : bool :=
  match lookup_file (w_files w) p with Some _ => true | None => false end.

(** Writing replaces the old content in place. *)
Fixpoint store_file (fs : list (list string * content)) (p : list string) (c : content)
  : list (list string * content) :=
  match fs with
  | [] => [(p, c)]
  | (p', c') :: fs' => if list_eqb p p' then (p', c) :: fs' else (p', c') :: store_file fs' p c
  end.

(* ------------------------------------------------------------------ *)
(** ** The state-and-exception monad *)

Inductive exn :=
| PyExc (msg : string)      (** an [Exception], by its [str] *)
| SysExit (code : Z).       (** [SystemExit] *)

Definition M (A : Type) : Type := world -> (A + exn) * world.

Definition ret {A} (a : A) : M A := fun w => (inl a, w).
Definition bind {A B} (m : M A) (f : A -> M B) : M B :=
  fun w => match m w with
           | (inl a, w1) => f a w1
           | (inr e, w1) => (inr e, w1)
           end.
Definition raise {A} (e : exn) : M A := fun w => (inr e, w).

Notation "x <- m ;; k" := (bind m (fun x => k))
  (at level 61, m at next level, right associativity).
Notation "m ;;; k" := (bind m (fun _ => k)) (at level 61, right associativity).

(** [try: m except Exception as e: h(str(e))] *)
Definition try_except {A} (m : M A) (h : string -> M A) : M A :=
  fun w => match m w with
           | (inr (PyExc s), w1) => h s w1
           | r => r
           end.

(** [try: m except: h] (a bare [except] also catches [SystemExit]) *)
Definition try_bare {A} (m : M A) (h : M A) : M A :=
  fun w => match m w with
           | (inr _, w1) => h w1
           | r => r
           end.

Definition get_cwd : M (list string) := fun w => (inl (w_cwd w), w).
Definition emit (e : event) : M unit := fun w => (inl tt, log_ev w e).

(** [repr(s)] of a [str]: single quotes unless [s] holds a single quote
    and no double quote; backslash, the chosen quote, tab, newline and
    carriage return escaped, the other ASCII controls as [\xhh].  Bytes
    above 0x7f are parts of UTF-8 characters and are taken as printable. *)
Definition bslash : ascii := ascii_of_nat 92.
Definition squote : ascii := ascii_of_nat 39.

Definition hex_digit (n : nat) : ascii :=
  ascii_of_nat (if n <? 10 then 48 + n else 87 + n).

Definition repr_char (qc c : ascii) : string :=
  let n := nat_of_ascii c in
  if n =? 92 then String bslash (String bslash EmptyString)
  else if Ascii.eqb c qc then String bslash (String c EmptyString)
  else if n =? 9 then String bslash "t"
  else if n =? 10 then String bslash "n"
  else if n =? 13 then String bslash "r"
  else if (n <? 32) || (n =? 127)
  then String bslash (String "x" (String (hex_digit (n / 16)) (String (hex_digit (n mod 16)) EmptyString)))
  else String c EmptyString.

Fixpoint repr_body (qc : ascii) (s : string) : string :=
  match s with
  | EmptyString => EmptyString
  | String c r => repr_char qc c +++ repr_body qc r
  end.

Fixpoint has_char (c : ascii) (s : string) : bool :=
  match s with
  | EmptyString => false
  | String d r => Ascii.eqb c d || has_char c r
  end.

Definition py_repr (s : string) : string :=
  let qc := if has_char squote s && negb (has_char (ascii_of_nat 34) s)
            then ascii_of_nat 34 else squote in
  String qc (repr_body qc s +++ String qc EmptyString).

(** [str(OSError)]: the [filename] is the path as the program passed it. *)
Definition errno_msg (n : string) (what : string) (name : string) : string :=
  "[Errno " +++ n +++ "] " +++ what +++ ": " +++ py_repr name.
Definition enoent := errno_msg "2" "No such file or directory".
Definition eexist := errno_msg "17" "File exists".
Definition enotdir := errno_msg "20" "Not a directory".
Definition eisdir := errno_msg "21" "Is a directory".

(** The lookup of the directories leading to a path: the error of the
    first proper ancestor (after [acc]) that is not a directory, [ENOTDIR]
    for a file and [ENOENT] for a missing entry. *)
Fixpoint ancestor_err (w : world) (acc : list string) (segs : list string)
  : option (string -> string) :=
  match segs with
  | [] | [_] => None
  | x :: rest =>
      let p := acc ++ [x] in
      if is_dir w p then ancestor_err w p rest
      else Some (if is_file w p then enotdir else enoent)
  end.

(** [os.path.join(a, b)] on strings. *)
Definition os_join (a b : string) : string :=
  if String.prefix "/" b then b
  else if String.eqb a "" || endswith a "/" then a +++ b
  else a +++ "/" +++ b.

(** [os.path.basename(s)] *)
Definition basename (s : string) : string := last (split_slash s) "".

(** [print(msg)] *)
Definition print (msg : string) : M unit := emit (EPrint msg).

(** [input(prompt)]; end of input is an [EOFError]. *)
Definition input (prompt : string) : M string :=
  fun w =>
    let w1 := log_ev w (EPrompt prompt) in
    match w_stdin w1 with
    | [] => (inr (PyExc "EOF when reading a line"), w1)
    | s :: rest => (inl s, set_stdin w1 rest)
    end.

(** [sys.exit(code)] *)
Definition sys_exit {A} (code : Z) : M A := raise (SysExit code).

(** [datetime.now()] *)
Definition now : M datetime :=
  fun w => (inl (w_clock w (w_tick w)), set_tick w (S (w_tick w))).

(** [p.mkdir(exist_ok=True)] *)
Definition mkdir_exist_ok (p : pypath) : M unit :=
  fun w =>
    let r := resolve (w_cwd w) p in
    match ancestor_err w [] r with
    | Some err => (inr (PyExc (err (py_str p))), w)
    | None =>
        if is_dir w r then (inl tt, w)
        else if is_file w r then (inr (PyExc (eexist (py_str p))), w)
        else (inl tt, log_ev (set_dirs w (w_dirs w ++ [r])) (EMkdir r))
    end.

(** [os.chdir(p)] *)
Definition chdir (p : pypath) : M unit :=
  fun w =>
    let r := resolve (w_cwd w) p in
    match ancestor_err w [] r with
    | Some err => (inr (PyExc (err (py_str p))), w)
    | None =>
        if is_dir w r then (inl tt, log_ev (set_cwd w r) (EChdir r))
        else if is_file w r then (inr (PyExc (enotdir (py_str p))), w)
        else (inr (PyExc (enoent (py_str p))), w)
    end.

(** [p.exists()] *)
Definition path_exists (p : pypath) : M bool :=
  fun w => let r := resolve (w_cwd w) p in (inl (is_dir w r || is_file w r), w).

(** [os.path.exists(s)]: the empty string names no file. *)
Definition os_path_exists (s : string) : M bool :=
  if String.eqb s "" then ret false else path_exists (parse_path s).

(** [os.path.relpath(path, start)] *)
Definition os_path_relpath (path start : pypath) : M string :=
  fun w => (inl (os_relpath (w_cwd w) path start), w).

(** [with open(p, 'w') as f: f.write(c)] *)
Definition write_file (p : pypath) (c : content) : M unit :=
  fun w =>
    let r := resolve (w_cwd w) p in
    match ancestor_err w [] r with
    | Some err => (inr (PyExc (err (py_str p))), w)
    | None =>
        if is_dir w r then (inr (PyExc (eisdir (py_str p))), w)
        else (inl tt, log_ev (set_files w (store_file (w_files w) r c)) (EWrite r c))
    end.

(** Where [shutil.copy2(src, dst)] copies to: into a directory [dst]
    under the source's base name, [os.path.join(dst, basename(src))], a
    [str]; otherwise to the [Path] [dst] itself. *)
Definition copy_dest (w : world) (src : string) (dst : pypath) : list string :=
  let rd0 := resolve (w_cwd w) dst in
  if is_dir w rd0 then resolve (w_cwd w) (py_join dst (basename src)) else rd0.

(** The destination as [copy2] names it in its errors, and its [repr]. *)
Definition copy_dest_name (w : world) (src : string) (dst : pypath) : string :=
  if is_dir w (resolve (w_cwd w) dst) then os_join (py_str dst) (basename src) else py_str dst.

Definition copy_dest_repr (w : world) (src : string) (dst : pypath) : string :=
  if is_dir w (resolve (w_cwd w) dst) then py_repr (os_join (py_str dst) (basename src))
  else "PosixPath(" +++ py_repr (py_str dst) +++ ")".

(** [shutil.copy2(src, dst)]: [copyfile] first refuses to copy an
    existing entry onto itself ([SameFileError]), then opens [src] for
    reading and the destination for writing. *)
Definition copy2 (src : string) (dst : pypath) : M unit :=
  fun w =>
    let rs := resolve (w_cwd w) (parse_path src) in
    let rd := copy_dest w src dst in
    let dname := copy_dest_name w src dst in
    if list_eqb rs rd && (is_dir w rs || is_file w rs)
    then (inr (PyExc (py_repr src +++ " and " +++ copy_dest_repr w src dst
                       +++ " are the same file")), w)
    else match ancestor_err w [] rs with
    | Some err => (inr (PyExc (err src)), w)
    | None =>
        if is_dir w rs then (inr (PyExc (eisdir src)), w)
        else match lookup_file (w_files w) rs with
        | None => (inr (PyExc (enoent src)), w)
        | Some c =>
            match ancestor_err w [] rd with
            | Some err => (inr (PyExc (err dname)), w)
            | None =>
                if is_dir w rd then (inr (PyExc (eisdir dname)), w)
                else (inl tt, log_ev (set_files w (store_file (w_files w) rd c)) (ECopy rs rd))
            end
        end
    end.

(** [subprocess.run(args, capture_output=True, text=True)].  A successful
    [git init] creates [.git] in the current directory. *)
Definition subprocess_run (args : list string) : M (Z * string * string) :=
  fun w =>
    let r := w_git w args (w_cwd w) in
    let w1 := log_ev w (ERun (w_cwd w) args r) in
    match r with
    | None => (inr (PyExc ("[Errno 2] No such file or directory: '" +++ hd "" args +++ "'")), w1)
    | Some (rc, out, err) =>
        let dotgit := w_cwd w ++ [".git"] in
        let w2 := if list_eqb args ["git"; "init"] && Z.eqb rc 0 && negb (is_dir w1 dotgit)
                  then set_dirs w1 (w_dirs w1 ++ [dotgit]) else w1 in
        (inl (rc, out, err), w2)
    end.

(* ------------------------------------------------------------------ *)
(** ** [class GitLFSVideoShare] *)

Record GitLFSVideoShare_obj := mkSharer
  { repo_path : pypath;
    videos_dir : pypath;
    pages_dir : pypath;
    github_pages_url : option string }.

(** [f"{x}"] of an attribute that may still be [None]. *)
Definition fmt_opt (o : option string) : string :=
  match o with Some s => s | None => "None" end.

(** [_run_command] *)
Definition _run_command (command : list string) : M string :=
  result <- subprocess_run command ;;
  let '(returncode, stdout, stderr) := result in
  if negb (Z.eqb returncode 0)
  then raise (PyExc ("命令失败: " +++ stderr))
  else ret (strip stdout).

(** The rewriting of the remote URL in [_get_github_url]. *)
Definition github_pages_of_remote (url0 : string) : string :=
  let url1 := if endswith url0 ".git"
              then substring 0 (String.length url0 - 4) url0 else url0 in
  let url2 := if startswith url1 "git@github.com:"
              then "https://" +++ substring 15 (String.length url1 - 15) url1 else url1 in
  replace url2 "github.com" "github.io".

Definition url_prompt : string :=
  "请输入GitHub Pages URL (格式: https://username.github.io/repo): ".

(** [_get_github_url] *)
Definition _get_github_url : M string :=
  found <- try_bare
             (result <- subprocess_run ["git"; "config"; "--get"; "remote.origin.url"] ;;
              let '(returncode, stdout, _) := result in
              if Z.eqb returncode 0
              then ret (Some (github_pages_of_remote (strip stdout)))
              else ret None)
             (ret None) ;;
  match found with
  | Some url => ret url
  | None => s <- input url_prompt ;; ret (strip s)
  end.

Definition gitattributes_text : string :=
  "*.mp4 filter=lfs diff=lfs merge=lfs -text" +++ nl +++
  "*.mkv filter=lfs diff=lfs merge=lfs -text" +++ nl +++
  "*.mov filter=lfs diff=lfs merge=lfs -text" +++ nl.

(** [setup_repository]: returns the object with [github_pages_url] set. *)
Definition setup_repository (self : GitLFSVideoShare_obj) : M GitLFSVideoShare_obj :=
  try_except
    (mkdir_exist_ok (videos_dir self) ;;;
     mkdir_exist_ok (pages_dir self) ;;;
     chdir (repo_path self) ;;;
     initialized <- path_exists (py_join (repo_path self) ".git") ;;
     (if negb initialized
      then print "初始化Git仓库..." ;;;
           _ <- _run_command ["git"; "init"] ;;
           write_file (parse_path ".gitattributes") (CText gitattributes_text) ;;;
           _ <- _run_command ["git"; "lfs"; "install"] ;;
           ret tt
      else ret tt) ;;;
     url <- _get_github_url ;;
     ret {| repo_path := repo_path self; videos_dir := videos_dir self;
            pages_dir := pages_dir self; github_pages_url := Some url |})
    (fun e => print ("仓库设置失败: " +++ e) ;;; sys_exit 1).

(** [GitLFSVideoShare(repo_path)] *)
Definition GitLFSVideoShare (repo : string) : M GitLFSVideoShare_obj :=
  let rp := parse_path repo in
  setup_repository {| repo_path := rp; videos_dir := py_join rp "videos";
                      pages_dir := py_join rp "pages"; github_pages_url := None |}.

(** The page template of [create_player_page], up to the [<source>]
    line, and after it. *)
Definition lines (ls : list string) : string := String.concat "" (map (fun l => l +++ nl) ls).

Definition html_head (title : string) : string :=
  nl +++ lines [
  "<!DOCTYPE html>";
  "<html lang=" +++ q "zh-CN" +++ ">";
  "<head>";
  "    <meta charset=" +++ q "UTF-8" +++ ">";
  "    <meta name=" +++ q "viewport" +++ " content="
    +++ q "width=device-width, initial-scale=1.0" +++ ">";
  "    <title>" +++ title +++ "</title>";
  "    <style>";
  "        body {";
  "            margin: 0;";
  "            padding: 0;";
  "            background: #000;";
  "            display: flex;";
  "            flex-direction: column;";
  "            justify-content: center;";
  "            align-items: center;";
  "            min-height: 100vh;";
  "            color: #fff;";
  "            font-family: system-ui, -apple-system, sans-serif;";
  "        }";
  "        .video-container {";
  "            width: 100%;";
  "            max-width: 1920px;";
  "            margin: 20px auto;";
  "            padding: 0 20px;";
  "            box-sizing: border-box;";
  "        }";
  "        video {";
  "            width: 100%;";
  "            max-height: 85vh;";
  "            background: #000;";
  "        }";
  "        h1 {";
  "            margin: 20px;";
  "            font-size: 24px;";
  "            text-align: center;";
  "        }";
  "    </style>";
  "</head>";
  "<body>";
  "    <h1>" +++ title +++ "</h1>";
  "    <div class=" +++ q "video-container" +++ ">";
  "        <video controls preload=" +++ q "metadata" +++ ">"].

Definition html_tail : string :=
  lines [
  "            您的浏览器不支持视频播放。";
  "        </video>";
  "    </div>";
  "</body>";
  "</html>"].

(** The [<source>] element of the page. *)
Definition source_tag (video_relative_path : string) : string :=
  "<source src=" +++ q ("/" +++ video_relative_path) +++ " type=" +++ q "video/mp4" +++ ">".

Definition html_content (title video_relative_path : string) : string :=
  html_head title +++ "            " +++ source_tag video_relative_path +++ nl +++ html_tail.

(** [f'{timestamp}_{Path(title).stem}.html'] *)
Definition page_name_of (timestamp title : string) : string :=
  timestamp +++ "_" +++ py_stem (parse_path title) +++ ".html".

(** [create_player_page] *)
Definition create_player_page (self : GitLFSVideoShare_obj) (video_path : pypath)
    (title : string) : M pypath :=
  video_relative_path <- os_path_relpath video_path (repo_path self) ;;
  let html := html_content title video_relative_path in
  dt <- now ;;
  let timestamp := strftime dt in
  let page_name := page_name_of timestamp title in
  let page_path := py_join (pages_dir self) page_name in
  write_file page_path (CText html) ;;;
  ret page_path.

(** The dictionary returned by [share_video]. *)
Record share_info := mkInfo
  { info_video_path : string; info_page_path : string;
    info_page_url : string; info_qr_path : string }.

(** [share_video].  The QR image is modelled by the string it encodes;
    [qrcode]'s capacity error for overlong data is not modelled. *)
Definition share_video (self : GitLFSVideoShare_obj) (video_path : string) : M share_info :=
  try_except
    (let video_name := py_name (parse_path video_path) in
     let target_path := py_join (videos_dir self) video_name in
     copy2 video_path target_path ;;;
     page_path <- create_player_page self target_path video_name ;;
     page_relative_path <- (match relative_to page_path (repo_path self) with
                            | Some r => ret r
                            | None => raise (PyExc (py_str page_path
                                         +++ " is not in the subpath of "
                                         +++ py_str (repo_path self)))
                            end) ;;
     let page_url := fmt_opt (github_pages_url self) +++ "/" +++ py_str page_relative_path in
     let qr_path := py_join (py_join (repo_path self) "qrcodes")
                      (py_stem (parse_path video_name) +++ "_qr.png") in
     mkdir_exist_ok (py_parent qr_path) ;;;
     write_file qr_path (CQR page_url) ;;;
     _ <- _run_command ["git"; "add"; "."] ;;
     _ <- _run_command ["git"; "commit"; "-m"; "Add video: " +++ video_name] ;;
     ret {| info_video_path := py_str target_path; info_page_path := py_str page_path;
            info_page_url := page_url; info_qr_path := py_str qr_path |})
    (fun e => raise (PyExc ("分享失败: " +++ e))).

(* ------------------------------------------------------------------ *)
(** ** [main] *)

Definition notfound_msg : string := "错误：文件不存在！".
Definition video_prompt : string := nl +++ "请输入视频文件路径（直接拖入文件即可）: ".

(** The [try] block of [main] and its handler, for the repository path
    read at the first prompt. *)
Definition main_body (repo : string) : M unit :=
  try_except
    (sharer <- GitLFSVideoShare repo ;;
     v <- input video_prompt ;;
     let video_path := strip_by is_dq (strip v) in
     ex <- os_path_exists video_path ;;
     if negb ex then print notfound_msg
     else
       print (nl +++ "处理中...") ;;;
       info <- share_video sharer video_path ;;
       print (nl +++ "=== 分享成功！===") ;;;
       print ("视频路径: " +++ info_video_path info) ;;;
       print ("播放页面: " +++ info_page_path info) ;;;
       print ("访问地址: " +++ info_page_url info) ;;;
       print ("二维码位置: " +++ info_qr_path info) ;;;
       print (nl +++ "注意：需要手动push到GitHub并启用GitHub Pages才能访问") ;;;
       print "1. git push origin main" ;;;
       print "2. 在GitHub仓库设置中启用GitHub Pages")
    (fun e => print (nl +++ "错误：" +++ e)).

Definition main : M unit :=
  print ("=== GitHub LFS 视频分享工具 ===" +++ nl) ;;;
  r <- input "请输入GitHub仓库本地路径: " ;;
  main_body (strip r).

(* ------------------------------------------------------------------ *)
(** ** Concrete scenarios *)

(** A user [u] whose home holds two videos and a repository directory
    [repo]; [git] succeeds with empty output, except [git config] which
    prints the given remote URL (or fails without one). *)
Definition home : list string := ["home"; "u"].

Definition config_args : list string := ["git"; "config"; "--get"; "remote.origin.url"].

Definition demo_git (remote : option string) (args cwd : list string)
  : option (Z * string * string) :=
  if list_eqb args config_args
  then match remote with
       | Some r => Some (0%Z, r, "")
       | None => Some (1%Z, "", "")
       end
  else Some (0%Z, "", "").

(** The clock reads 2026-10-18 12:00:00 plus one second per reading. *)
Definition demo_clock (n : nat) : datetime := mkDT 2026 10 18 12 0 n.

Definition fresh_dirs : list (list string) := [["home"]; home; home ++ ["repo"]].
Definition inited_dirs : list (list string) := fresh_dirs ++ [home ++ ["repo"; ".git"]].

Definition demo_world (dirs : list (list string)) (stdin : list string)
    (remote : option string) : world :=
  mkWorld home dirs
    [(home ++ ["clip.mp4"], CBlob "mp4 bytes"); (home ++ ["clip.mkv"], CBlob "mkv bytes")]
    (demo_git remote) stdin demo_clock 0 [].

Definition demo_remote : option string := Some "https://github.com/alice/site.git".

(** The object built for [/home/u/repo] once its remote is known, and
    the process state after the constructor ran there. *)
Definition demo_repo : pypath := parse_path "/home/u/repo".

Definition demo_sharer : GitLFSVideoShare_obj :=
  {| repo_path := demo_repo; videos_dir := py_join demo_repo "videos";
     pages_dir := py_join demo_repo "pages";
     github_pages_url := Some "https://alice.github.io/site" |}.

Definition share_world : world :=
  set_cwd (demo_world (inited_dirs ++ [home ++ ["repo"; "videos"]; home ++ ["repo"; "pages"]])
             [] demo_remote)
    (home ++ ["repo"]).



(* ------------------------------------------------------------------ *)
(** ** Observations on runs *)

(** What an operation leaves untouched. *)
Definition frame (w w1 : world) : Prop :=
  w_cwd w1 = w_cwd w /\ w_tick w1 = w_tick w /\ w_clock w1 = w_clock w /\ w_git w1 = w_git w.

Definition no_slash (s : string) : Prop := forall c, In c (list_ascii_of_string s) -> c <> "/"%char.

(** A path component as [Path] produces it. *)
Definition component (n : string) : Prop := no_slash n /\ n <> "" /\ n <> ".".

(** The commands [share_video] and [setup_repository] send through
    [_run_command]. *)
Definition runner_cmd (args : list string) : bool :=
  match args with
  | ["git"; "init"] | ["git"; "lfs"; "install"] | ["git"; "add"; "."]
  | ["git"; "commit"; "-m"; _] => true
  | _ => false
  end.

(** A logged run of such a command that did not exit with status 0. *)
Definition runner_fail (e : event) : bool :=
  match e with
  | ERun _ args r =>
      runner_cmd args && match r with
                         | Some (rc, _, _) => negb (Z.eqb rc 0)
                         | None => true
                         end
  | _ => false
  end.

Definition is_print (e : event) : Prop := match e with EPrint _ => True | _ => False end.

Definition is_exn {A} (r : A + exn) : Prop := match r with inr _ => True | inl _ => False end.

(** After a failed command, the operation raises and only prints. *)
Definition fail_stop {A} (m : M A) : Prop :=
  forall w r w', m w = (r, w') ->
  exists l, w_log w' = w_log w ++ l /\
    forall l1 e l2, l = l1 ++ e :: l2 -> runner_fail e = true -> is_exn r /\ Forall is_print l2.

(** After a failed command, the operation only prints (whatever it returns). *)
Definition fail_stop_log {A} (m : M A) : Prop :=
  forall w r w', m w = (r, w') ->
  exists l, w_log w' = w_log w ++ l /\
    forall l1 e l2, l = l1 ++ e :: l2 -> runner_fail e = true -> Forall is_print l2.

(** The operation runs no failing command. *)
Definition quiet {A} (m : M A) : Prop :=
  forall w r w', m w = (r, w') ->
  exists l, w_log w' = w_log w ++ l /\ Forall (fun e => runner_fail e = false) l.

(** The operation only prints and raises. *)
Definition loud {A} (m : M A) : Prop :=
  forall w r w', m w = (r, w') ->
  exists l, w_log w' = w_log w ++ l /\ Forall is_print l /\ is_exn r.

(** The operation only prints. *)
Definition prints_only {A} (m : M A) : Prop :=
  forall w r w', m w = (r, w') ->
  exists l, w_log w' = w_log w ++ l /\ Forall is_print l.

(** A logged event that runs in, or moves to, directory [d]. *)
Definition cwd_ok (d : list string) (e : event) : Prop :=
  match e with ERun c _ _ | EChdir c => c = d | _ => True end.

(** The operation leaves the working directory alone, and runs its
    commands there. *)
Definition keeps_cwd {A} (m : M A) : Prop :=
  forall w r w', m w = (r, w') ->
  w_cwd w' = w_cwd w /\ exists l, w_log w' = w_log w ++ l /\ Forall (cwd_ok (w_cwd w)) l.

(** The operation neither moves nor runs anything. *)
Definition no_cwd {A} (m : M A) : Prop :=
  forall w r w', m w = (r, w') ->
  w_cwd w' = w_cwd w /\ exists l, w_log w' = w_log w ++ l /\ forall d, Forall (cwd_ok d) l.

(** The operation moves at most to [p], runs everything there, and has
    moved there when it returns normally. *)
Definition enters {A} (m : M A) (p : pypath) : Prop :=
  forall w r w', m w = (r, w') ->
  (w_cwd w' = w_cwd w \/ w_cwd w' = resolve (w_cwd w) p) /\
  (forall a, r = inl a -> w_cwd w' = resolve (w_cwd w) p) /\
  exists l, w_log w' = w_log w ++ l /\ Forall (cwd_ok (resolve (w_cwd w) p)) l.

Definition enters_weak {A} (m : M A) (p : pypath) : Prop :=
  forall w r w', m w = (r, w') ->
  (w_cwd w' = w_cwd w \/ w_cwd w' = resolve (w_cwd w) p) /\
  exists l, w_log w' = w_log w ++ l /\ Forall (cwd_ok (resolve (w_cwd w) p)) l.

Definition is_file_event (e : event) : bool :=
  match e with ECopy _ _ | EWrite _ _ => true | _ => false end.


(** The operation raises only [Exception]s, never [SystemExit]. *)
Definition pyexc_only {A} (m : M A) : Prop :=
  forall w e w', m w = (inr e, w') -> exists s, e = PyExc s.

(** The operation keeps a property [I] of the directory list and logs
    only events accepted by [P]. *)
Definition log_only (I : list (list string) -> Prop) (P : event -> bool) {A} (m : M A) : Prop :=
  forall w r w', I (w_dirs w) -> m w = (r, w') ->
  I (w_dirs w') /\ exists l, w_log w' = w_log w ++ l /\ Forall (fun e => P e = true) l.

(** The [git] commands the program's source contains. *)
Definition listed_git_cmd (args : list string) : bool :=
  match args with
  | ["git"; "init"] | ["git"; "lfs"; "install"]
  | ["git"; "config"; "--get"; "remote.origin.url"]
  | ["git"; "add"; "."] | ["git"; "commit"; "-m"; _] => true
  | _ => false
  end.

Definition runs_listed (e : event) : bool :=
  match e with ERun _ args _ => listed_git_cmd args | _ => true end.

(** The events only [setup_repository]'s initialisation branch logs. *)
Definition init_event (e : event) : bool :=
  match e with
  | EPrint s => String.eqb s "初始化Git仓库..."
  | ERun _ args _ => list_eqb args ["git"; "init"] || list_eqb args ["git"; "lfs"; "install"]
  | EWrite _ _ => true
  | _ => false
  end.

(* ================================================================== *)
(** * Properties *)

(** ** Strings *)

Lemma sappend_assoc (a b c : string) : (a +++ b) +++ c = a +++ b +++ c.
Proof. induction a as [| x a IH]; simpl; [reflexivity | now rewrite IH]. Qed.


Lemma sappend_same_length (a b x y : string) :
  String.length a = String.length b -> a +++ x = b +++ y -> a = b.
Proof.
  revert b. induction a as [| c a IH]; intros [| d b] Hl H; simpl in *; try discriminate.
  - reflexivity.
  - injection H as -> H. f_equal. apply (IH b); [lia | exact H].
Qed.

Lemma prefix_app (t post : string) : String.prefix t (t +++ post) = true.
Proof.
  induction t as [| c t IH]; simpl.
  - destruct post; reflexivity.
  - destruct (ascii_dec c c) as [_ | n]; [exact IH | now destruct n].
Qed.

(** [substringb] decides [contains] in the direction used below. *)
Lemma contains_substringb (s t : string) : contains s t -> substringb t s = true.
Proof.
  intros (pre & post & ->). induction pre as [| c pre IH]; simpl.
  - destruct t as [| x t]; simpl.
    + destruct post; reflexivity.
    + destruct (ascii_dec x x) as [_ | n]; [| now destruct n].
      rewrite prefix_app. reflexivity.
  - rewrite IH. apply orb_true_r.
Qed.

(** ** The page file name *)

Lemma digit_inj (a b : nat) : a < 10 -> b < 10 -> digit a = digit b -> a = b.
Proof.
  unfold digit, chr. intros Ha Hb H. injection H as H.
  apply (f_equal nat_of_ascii) in H.
  rewrite !Ascii.nat_ascii_embedding in H by lia. lia.
Qed.

Lemma digit_app_inj (a b : nat) (s t : string) :
  a < 10 -> b < 10 -> digit a +++ s = digit b +++ t -> a = b /\ s = t.
Proof.
  intros Ha Hb H.
  pose proof (f_equal (fun x => match x with String c _ => nat_of_ascii c | _ => 0 end) H)
    as H1.
  pose proof (f_equal (fun x => match x with String _ r => r | _ => EmptyString end) H)
    as H2.
  change (nat_of_ascii (ascii_of_nat (48 + a)) = nat_of_ascii (ascii_of_nat (48 + b))) in H1.
  change (s = t) in H2.
  rewrite !Ascii.nat_ascii_embedding in H1 by lia. split; [lia | exact H2].
Qed.

Lemma dec10 (a : nat) : a = 10 * (a / 10) + a mod 10.
Proof. apply Nat.div_mod. discriminate. Qed.
Lemma four_digits (a b : nat) : a < 10 * 1000 -> b < 10 * 1000 ->
  a / 1000 mod 10 = b / 1000 mod 10 -> a / 100 mod 10 = b / 100 mod 10 ->
  a / 10 mod 10 = b / 10 mod 10 -> a mod 10 = b mod 10 -> a = b.
Proof.
  intros Ha Hb H1 H2 H3 H4.
  assert (E1 : forall x, x / 100 = x / 10 / 10) by (intro x; rewrite Nat.Div0.div_div; reflexivity).
  assert (E2 : forall x, x / 1000 = x / 100 / 10) by (intro x; rewrite Nat.Div0.div_div; reflexivity).
  assert (L1 : a / 1000 < 10) by (apply Nat.Div0.div_lt_upper_bound; lia).
  assert (L2 : b / 1000 < 10) by (apply Nat.Div0.div_lt_upper_bound; lia).
  rewrite (Nat.mod_small (a / 1000)), (Nat.mod_small (b/1000)) in H1 by lia.
  pose proof (dec10 a). pose proof (dec10 b). pose proof (dec10 (a/10)). pose proof (dec10 (b/10)).
  pose proof (dec10 (a/100)). pose proof (dec10 (b/100)).
  rewrite <- E1 in *. rewrite <- E2 in *. lia.
Qed.
Lemma two_digits (a b : nat) : a < 100 -> b < 100 ->
  a / 10 mod 10 = b / 10 mod 10 -> a mod 10 = b mod 10 -> a = b.
Proof.
  intros Ha Hb H1 H2.
  assert (a / 10 < 10) by (apply Nat.Div0.div_lt_upper_bound; lia).
  assert (b / 10 < 10) by (apply Nat.Div0.div_lt_upper_bound; lia).
  rewrite !Nat.mod_small in H1 by lia.
  pose proof (dec10 a). pose proof (dec10 b). lia.
Qed.

Lemma str_tail_inj (c d : ascii) (s t : string) : String c s = String d t -> s = t.
Proof. intro H. injection H as _ H. exact H. Qed.

Ltac digit_step H :=
  apply digit_app_inj in H;
  [ let E := fresh "E" in destruct H as [E H]
  | apply Nat.mod_upper_bound; discriminate
  | apply Nat.mod_upper_bound; discriminate ].

Lemma strftime_length (dt : datetime) : String.length (strftime dt) = 15.
Proof. reflexivity. Qed.

Lemma strftime_inj (dt1 dt2 : datetime) :
  dt_valid dt1 -> dt_valid dt2 -> strftime dt1 = strftime dt2 -> dt1 = dt2.
Proof.
  destruct dt1 as [y1 mo1 d1 h1 mi1 s1], dt2 as [y2 mo2 d2 h2 mi2 s2].
  unfold dt_valid; simpl. intros V1 V2 H.
  unfold strftime, pad4, pad2 in H; cbn [year month day hour minute second] in H.
  rewrite !sappend_assoc in H.
  do 8 digit_step H. cbn [String.append] in H. apply str_tail_inj in H.
  do 5 digit_step H.
  apply digit_inj in H; [| apply Nat.mod_upper_bound; discriminate
                         | apply Nat.mod_upper_bound; discriminate].
  f_equal.
  - apply four_digits; lia.
  - apply two_digits; lia.
  - apply two_digits; lia.
  - apply two_digits; lia.
  - apply two_digits; lia.
  - apply two_digits; lia.
Qed.

Lemma page_name_length_prefix (dt : datetime) (t : string) :
  page_name_of (strftime dt) t = strftime dt +++ "_" +++ py_stem (parse_path t) +++ ".html".
Proof. reflexivity. Qed.

Lemma page_name_distinct (dt1 dt2 : datetime) (t1 t2 : string) :
  dt_valid dt1 -> dt_valid dt2 -> dt1 <> dt2 ->
  page_name_of (strftime dt1) t1 <> page_name_of (strftime dt2) t2.
Proof.
  intros V1 V2 Hne H. apply Hne, strftime_inj; [exact V1 | exact V2 |].
  unfold page_name_of in H. apply sappend_same_length in H; [exact H |].
  now rewrite !strftime_length.
Qed.

(** ** Running the monadic code *)

(** Splits a hypothesis [prog w = (inl _, _)] along the branches of the
    unfolded program, discarding the ones that raise. *)
Ltac crush H :=
  repeat match type of H with
    | (inr _, _) = (inl _, _) => discriminate H
    | (inl _, _) = (inl _, _) => injection H as; subst
    | (let (_, _) := ?p in _) = _ => destruct p eqn:?
    | (match ?x with _ => _ end) = _ => destruct x eqn:?
    | (if ?b then _ else _) = _ => destruct b eqn:?
    end.

Lemma bind_ok {A B} (m : M A) (f : A -> M B) (w w' : world) (b : B) :
  bind m f w = (inl b, w') -> exists a w1, m w = (inl a, w1) /\ f a w1 = (inl b, w').
Proof.
  unfold bind. destruct (m w) as [[a | e] w1]; intro H; [| discriminate H].
  exists a, w1. split; [reflexivity | exact H].
Qed.

Lemma try_reraise_ok {A} (m : M A) (g : string -> exn) (w w' : world) (b : A) :
  try_except m (fun e => raise (g e)) w = (inl b, w') -> m w = (inl b, w').
Proof.
  unfold try_except, raise. destruct (m w) as [[a | [s | c]] w1]; intro H;
    solve [exact H | discriminate H].
Qed.

Ltac inv_bind H :=
  apply bind_ok in H;
  let a := fresh "a" in let w1 := fresh "w" in let H1 := fresh "H" in
  destruct H as (a & w1 & H1 & H); cbv beta in H.

Ltac frame_tac := repeat split; reflexivity.

Lemma copy2_ok (src : string) (dst : pypath) (w w1 : world) (u : unit) :
  copy2 src dst w = (inl u, w1) ->
  (exists rs rd, w_log w1 = w_log w ++ [ECopy rs rd]) /\ frame w w1.
Proof.
  unfold copy2. intro H. crush H; split; [eexists; eexists; reflexivity | frame_tac].
Qed.

Lemma write_file_ok (p : pypath) (c : content) (w w1 : world) (u : unit) :
  write_file p c w = (inl u, w1) ->
  w_log w1 = w_log w ++ [EWrite (resolve (w_cwd w) p) c] /\ frame w w1.
Proof. unfold write_file. intro H. crush H; split; [reflexivity | frame_tac]. Qed.

Lemma mkdir_ok (p : pypath) (w w1 : world) (u : unit) :
  mkdir_exist_ok p w = (inl u, w1) ->
  (w_log w1 = w_log w \/ w_log w1 = w_log w ++ [EMkdir (resolve (w_cwd w) p)]) /\ frame w w1.
Proof.
  unfold mkdir_exist_ok. intro H. crush H; split;
    solve [left; reflexivity | right; reflexivity | frame_tac].
Qed.

Lemma subprocess_run_ok (args : list string) (w w1 : world) (r : Z * string * string) :
  subprocess_run args w = (inl r, w1) ->
  w_git w args (w_cwd w) = Some r /\ w_log w1 = w_log w ++ [ERun (w_cwd w) args (Some r)] /\
  frame w w1.
Proof.
  unfold subprocess_run. destruct (w_git w args (w_cwd w)) as [[[rc o] e] |] eqn:G;
    intro H; [| discriminate H].
  injection H as <- <-.
  destruct (_ && _ && _); (split; [reflexivity | split; [reflexivity | frame_tac]]).
Qed.

Lemma run_command_ok (cmd : list string) (w w1 : world) (out : string) :
  _run_command cmd w = (inl out, w1) ->
  (exists o e, w_git w cmd (w_cwd w) = Some (0%Z, o, e) /\ out = strip o /\
     w_log w1 = w_log w ++ [ERun (w_cwd w) cmd (Some (0%Z, o, e))]) /\ frame w w1.
Proof.
  unfold _run_command. intro H. inv_bind H.
  apply subprocess_run_ok in H0 as (G & L & F).
  destruct a as [[rc o] e]. unfold raise, ret in H.
  destruct (Z.eqb rc 0) eqn:Z0; simpl in H; [| discriminate H].
  apply Z.eqb_eq in Z0. subst rc. injection H as <- <-.
  split; [exists o, e; split; [exact G | split; [reflexivity | exact L]] | exact F].
Qed.

Lemma create_player_page_ok (self : GitLFSVideoShare_obj) (vp : pypath) (title : string)
    (w w1 : world) (pp : pypath) :
  create_player_page self vp title w = (inl pp, w1) ->
  pp = py_join (pages_dir self) (page_name_of (strftime (w_clock w (w_tick w))) title) /\
  w_log w1 = w_log w ++ [EWrite (resolve (w_cwd w) pp)
                           (CText (html_content title (os_relpath (w_cwd w) vp (repo_path self))))] /\
  w_cwd w1 = w_cwd w /\ w_tick w1 = S (w_tick w) /\ w_clock w1 = w_clock w /\
  w_git w1 = w_git w.
Proof.
  unfold create_player_page. intro H.
  inv_bind H. unfold os_path_relpath in H0. injection H0 as <- <-.
  inv_bind H. unfold now in H0. injection H0 as <- <-.
  cbv zeta in H. inv_bind H. apply write_file_ok in H0 as (L & F1 & F2 & F3 & F4).
  unfold ret in H. injection H as <- <-.
  cbn [w_log w_cwd w_tick w_clock w_git set_tick] in *.
  repeat split; assumption.
Qed.

Lemma share_video_ok (s : GitLFSVideoShare_obj) (vp : string) (w w' : world)
    (info : share_info) :
  share_video s vp w = (inl info, w') ->
  let c := w_cwd w in
  let n := py_name (parse_path vp) in
  let target := py_join (videos_dir s) n in
  let pp := py_join (pages_dir s) (page_name_of (strftime (w_clock w (w_tick w))) n) in
  let qp := py_join (py_join (repo_path s) "qrcodes") (py_stem (parse_path n) +++ "_qr.png") in
  exists rel rs rd lm ra rc,
    relative_to pp (repo_path s) = Some rel /\
    info_page_url info = fmt_opt (github_pages_url s) +++ "/" +++ py_str rel /\
    info_page_path info = py_str pp /\ info_qr_path info = py_str qp /\
    (lm = [] \/ lm = [EMkdir (resolve c (py_parent qp))]) /\
    w_log w' = w_log w ++
      [ECopy rs rd;
       EWrite (resolve c pp) (CText (html_content n (os_relpath c target (repo_path s))))]
      ++ lm ++
      [EWrite (resolve c qp) (CQR (info_page_url info));
       ERun c ["git"; "add"; "."] ra;
       ERun c ["git"; "commit"; "-m"; "Add video: " +++ n] rc] /\
    w_cwd w' = c.
Proof.
  intro H. apply try_reraise_ok in H. cbv zeta in H. cbv zeta.
  inv_bind H. apply copy2_ok in H0 as ((rs & rd & L1) & C1 & T1 & K1 & G1).
  inv_bind H. apply create_player_page_ok in H0 as (-> & L2 & C2 & T2 & K2 & G2).
  inv_bind H.
  lazymatch type of H0 with
  | context [relative_to ?p ?r] => destruct (relative_to p r) as [rel |] eqn:R
  end;
    unfold ret, raise in H0; [injection H0 as <- <- | discriminate H0].
  cbv zeta in H.
  inv_bind H. apply mkdir_ok in H0 as (L3 & C3 & T3 & K3 & G3).
  inv_bind H. apply write_file_ok in H0 as (L4 & C4 & T4 & K4 & G4).
  inv_bind H. apply run_command_ok in H0 as ((o1 & e1 & R1 & _ & L5) & C5 & T5 & K5 & G5).
  inv_bind H. apply run_command_ok in H0 as ((o2 & e2 & R2 & _ & L6) & C6 & T6 & K6 & G6).
  unfold ret in H. injection H as <- <-. simpl.
  rewrite T1, K1 in *. rewrite C1 in *.
  exists rel, rs, rd.
  destruct L3 as [L3 | L3]; [exists [] | exists [EMkdir (resolve (w_cwd w) (py_parent
      (py_join (py_join (repo_path s) "qrcodes")
         (py_stem (parse_path (py_name (parse_path vp))) +++ "_qr.png"))))]].
  all: eexists; eexists; split; [exact R |]; split; [reflexivity |]; split; [reflexivity |].
  all: split; [reflexivity |]; split; [auto |].
  all: split; [| congruence].
  all: rewrite L6, C5, L5, C4, L4, C3, L3, C2, L2, L1; rewrite <- !app_assoc; reflexivity.
Qed.

(** ** The files a share leaves *)

Lemma copy2_files (src : string) (dst : pypath) (w w1 : world) (u : unit) :
  copy2 src dst w = (inl u, w1) ->
  exists csrc, lookup_file (w_files w) (resolve (w_cwd w) (parse_path src)) = Some csrc /\
    w_files w1 = store_file (w_files w) (copy_dest w src dst) csrc /\
    w_log w1 = w_log w ++ [ECopy (resolve (w_cwd w) (parse_path src)) (copy_dest w src dst)].
Proof.
  unfold copy2. cbv zeta. intro H. crush H.
  eexists; split; [reflexivity | split; reflexivity].
Qed.

Lemma write_file_files (p : pypath) (c : content) (w w1 : world) (u : unit) :
  write_file p c w = (inl u, w1) -> w_files w1 = store_file (w_files w) (resolve (w_cwd w) p) c.
Proof. unfold write_file. intro H. crush H. reflexivity. Qed.

Lemma mkdir_files (p : pypath) (w w1 : world) (u : unit) :
  mkdir_exist_ok p w = (inl u, w1) -> w_files w1 = w_files w.
Proof. unfold mkdir_exist_ok. intro H. crush H; reflexivity. Qed.

Lemma run_command_files (cmd : list string) (w w1 : world) (out : string) :
  _run_command cmd w = (inl out, w1) -> w_files w1 = w_files w.
Proof.
  unfold _run_command. intro H. inv_bind H. unfold subprocess_run in H0. cbv zeta in H0.
  destruct (w_git w cmd (w_cwd w)) as [[[rc o] e] |]; [| discriminate H0].
  injection H0 as <- <-. unfold raise, ret in H.
  destruct (negb (Z.eqb rc 0)); [discriminate H | injection H as <- <-].
  match goal with |- context [if ?b then _ else _] => destruct b end; reflexivity.
Qed.

Lemma create_player_page_files (self : GitLFSVideoShare_obj) (vp : pypath) (title : string)
    (w w1 : world) (pp : pypath) :
  create_player_page self vp title w = (inl pp, w1) ->
  w_files w1 = store_file (w_files w) (resolve (w_cwd w) pp)
                 (CText (html_content title (os_relpath (w_cwd w) vp (repo_path self)))).
Proof.
  intro H. unfold create_player_page in H.
  inv_bind H. unfold os_path_relpath in H0. injection H0 as <- <-.
  inv_bind H. unfold now in H0. injection H0 as <- <-.
  cbv zeta in H. inv_bind H. apply write_file_files in H0.
  unfold ret in H. injection H as <- <-. exact H0.
Qed.

(** A successful share copies the video to [copy_dest], then writes the
    page and the QR image; nothing else touches the files. *)
Lemma share_video_files (s : GitLFSVideoShare_obj) (vp : string) (w w' : world)
    (info : share_info) :
  share_video s vp w = (inl info, w') ->
  let c := w_cwd w in
  let n := py_name (parse_path vp) in
  let target := py_join (videos_dir s) n in
  let pp := py_join (pages_dir s) (page_name_of (strftime (w_clock w (w_tick w))) n) in
  let qp := py_join (py_join (repo_path s) "qrcodes") (py_stem (parse_path n) +++ "_qr.png") in
  exists csrc,
    lookup_file (w_files w) (resolve c (parse_path vp)) = Some csrc /\
    w_files w' =
      store_file
        (store_file (store_file (w_files w) (copy_dest w vp target) csrc)
           (resolve c pp) (CText (html_content n (os_relpath c target (repo_path s)))))
        (resolve c qp) (CQR (info_page_url info)) /\
    exists l, w_log w' = w_log w ++ ECopy (resolve c (parse_path vp)) (copy_dest w vp target) :: l.
Proof.
  intro H. pose proof (share_video_ok _ _ _ _ _ H) as Hok. cbv zeta in Hok |- *.
  destruct Hok as (rel & rs & rd & lm & ra & rc & _ & Hurl & _ & _ & _ & Llog & _).
  apply try_reraise_ok in H. cbv zeta in H.
  inv_bind H. pose proof H0 as P1. apply copy2_ok in H0 as (_ & C1 & T1 & K1 & G1).
  apply copy2_files in P1 as (csrc & Lk & F1 & L1).
  inv_bind H. pose proof H0 as P2. apply create_player_page_ok in H0 as (-> & L2 & C2 & T2 & K2 & G2).
  apply create_player_page_files in P2 as F2.
  inv_bind H.
  lazymatch type of H0 with
  | context [relative_to ?p ?r] => destruct (relative_to p r) as [rel' |] eqn:R
  end;
    unfold ret, raise in H0; [injection H0 as <- <- | discriminate H0].
  cbv zeta in H.
  inv_bind H. pose proof H0 as P3. apply mkdir_ok in H0 as (L3 & C3 & _).
  apply mkdir_files in P3 as F3.
  inv_bind H. pose proof H0 as P4. apply write_file_ok in H0 as (L4 & C4 & _).
  apply write_file_files in P4 as F4.
  inv_bind H. pose proof H0 as P5. apply run_command_ok in H0 as ((o1 & e1 & _ & _ & L5) & C5 & _).
  apply run_command_files in P5 as F5.
  inv_bind H. pose proof H0 as P6. apply run_command_ok in H0 as ((o2 & e2 & _ & _ & L6) & _).
  apply run_command_files in P6 as F6.
  unfold ret in H. injection H as <- <-.
  rewrite T1, K1 in *. rewrite C1 in *.
  exists csrc. split; [exact Lk |]. split.
  - rewrite F6, F5, F4, F3, F2, F1. rewrite ?C4, ?C3, ?C2, ?C1. reflexivity.
  - rewrite L6, L5, L4.
    destruct L3 as [L3 | L3]; rewrite L3, L2, L1; rewrite <- !app_assoc; eexists; reflexivity.
Qed.

Lemma list_eqb_refl (l : list string) : list_eqb l l = true.
Proof. induction l as [| x l IH]; [reflexivity | cbn; rewrite String.eqb_refl, IH; reflexivity]. Qed.

Lemma lookup_store_same (fs : list (list string * content)) (p : list string) (c : content) :
  lookup_file (store_file fs p c) p = Some c.
Proof.
  induction fs as [| [p' c'] fs IH]; cbn.
  - rewrite list_eqb_refl. reflexivity.
  - destruct (list_eqb p p') eqn:E; cbn; rewrite E; [reflexivity | exact IH].
Qed.

Lemma list_eqb_eq (a b : list string) : list_eqb a b = true <-> a = b.
Proof.
  revert b. induction a as [| x a IH]; intros [| y b]; cbn; try (split; congruence).
  rewrite andb_true_iff, String.eqb_eq, IH. split; [intros [-> ->]; reflexivity |].
  intro E; injection E as -> ->; split; reflexivity.
Qed.

Lemma lookup_store_other (fs : list (list string * content)) (p q : list string) (c : content) :
  q <> p -> lookup_file (store_file fs q c) p = lookup_file fs p.
Proof.
  intro N. assert (Npq : list_eqb p q = false).
  { destruct (list_eqb p q) eqn:E; [apply list_eqb_eq in E; congruence | reflexivity]. }
  induction fs as [| [p' c'] fs IH]; cbn; [rewrite Npq; reflexivity |].
  destruct (list_eqb q p') eqn:E; cbn.
  - apply list_eqb_eq in E. subst p'. rewrite Npq. reflexivity.
  - destruct (list_eqb p p'); [reflexivity | exact IH].
Qed.

(** ** Path facts *)

Lemma split_slash_no_slash (s : string) : Forall no_slash (split_slash s).
Proof.
  induction s as [| c r IH]; simpl.
  - constructor; [intros x [] | constructor].
  - destruct (Ascii.eqb c "/") eqn:E.
    + constructor; [intros x [] | exact IH].
    + destruct (split_slash r) as [| h t] eqn:Sp.
      * constructor; [| constructor]. intros x [<- | []]. intros ->. discriminate E.
      * inversion IH as [| ? ? Hh Ht]; subst. constructor; [| exact Ht].
        intros x [<- | Hx]; [intros ->; discriminate E | exact (Hh x Hx)].
Qed.

Lemma split_slash_single (n : string) : no_slash n -> split_slash n = [n].
Proof.
  induction n as [| c r IH]; intro Hn; [reflexivity |]. simpl.
  assert (Hc : Ascii.eqb c "/" = false).
  { apply Ascii.eqb_neq. apply Hn. left. reflexivity. }
  rewrite Hc, IH; [reflexivity |]. intros x Hx. apply Hn. right. exact Hx.
Qed.

Lemma parse_component (n : string) : component n -> parse_path n = mkPath false [n].
Proof.
  intros (Hs & Hne & Hdot). unfold parse_path. rewrite split_slash_single by exact Hs.
  cbn [filter]. apply String.eqb_neq in Hne as Hne'. apply String.eqb_neq in Hdot as Hdot'.
  rewrite Hne', Hdot'. simpl negb. cbn [andb]. f_equal.
  destruct n as [| c r]; [contradiction |].
  assert (Hc : c <> "/"%char) by (apply Hs; left; reflexivity).
  cbn [String.prefix]. destruct (ascii_dec "/" c) as [E | _]; [subst c; contradiction | reflexivity].
Qed.

Lemma py_name_component (vp : string) :
  py_name (parse_path vp) <> "" -> component (py_name (parse_path vp)).
Proof.
  unfold py_name, parse_path; simpl p_segs. intro Hne.
  set (l := filter _ (split_slash vp)) in *.
  assert (Hl : l <> []) by (intros E; rewrite E in Hne; contradiction).
  assert (Hin : In (last l "") l).
  { destruct (exists_last Hl) as (l' & x & E). rewrite E, last_last. apply in_or_app. right. left. reflexivity. }
  unfold l in Hin. apply filter_In in Hin as (Hin & Hf).
  apply andb_prop in Hf as (H1 & H2). apply negb_true_iff, String.eqb_neq in H1, H2.
  split; [| split; assumption].
  pose proof (split_slash_no_slash vp) as F. rewrite Forall_forall in F. exact (F _ Hin).
Qed.

Lemma resolve_app (c : list string) (p : pypath) (segs : list string) :
  resolve c (mkPath (p_abs p) (p_segs p ++ segs)) = fold_left norm_step segs (resolve c p).
Proof. unfold resolve. simpl. apply fold_left_app. Qed.

Lemma common_len_app (a b : list string) : common_len a (a ++ b) = length a.
Proof. induction a as [| x a IH]; simpl; [reflexivity | now rewrite String.eqb_refl, IH]. Qed.

(** The video's path relative to the repository, as the page refers to it. *)
Lemma relpath_video (c : list string) (R : pypath) (n : string) :
  component n -> n <> ".." ->
  os_relpath c (py_join (py_join R "videos") n) R = "videos/" +++ n.
Proof.
  intros Hc Hdd. unfold py_join. rewrite (parse_component n Hc). simpl.
  rewrite <- app_assoc. simpl. unfold os_relpath.
  rewrite (resolve_app c R ["videos"; n]). simpl fold_left.
  assert (E : norm_step (norm_step (resolve c R) "videos") n = resolve c R ++ ["videos"; n]).
  { unfold norm_step. apply String.eqb_neq in Hdd. rewrite Hdd. simpl.
    rewrite <- app_assoc. reflexivity. }
  rewrite E, common_len_app, Nat.sub_diag. simpl.
  rewrite skipn_app, skipn_all, Nat.sub_diag. reflexivity.
Qed.

(** ** The constructed object *)

Lemma setup_repository_fields (self s : GitLFSVideoShare_obj) (w w1 : world) :
  setup_repository self w = (inl s, w1) ->
  repo_path s = repo_path self /\ videos_dir s = videos_dir self /\ pages_dir s = pages_dir self.
Proof.
  unfold setup_repository, try_except.
  match goal with |- context [match ?b w with _ => _ end] => destruct (b w) as [[a | [e | c]] w'] eqn:B end;
    intro H.
  - injection H as <- <-. repeat inv_bind B. unfold ret in B. injection B as <- <-.
    repeat split.
  - unfold bind, print, emit, sys_exit, raise in H. discriminate H.
  - discriminate H.
Qed.

Lemma constructor_fields (r : string) (s : GitLFSVideoShare_obj) (w w1 : world) :
  GitLFSVideoShare r w = (inl s, w1) ->
  repo_path s = parse_path r /\ videos_dir s = py_join (parse_path r) "videos" /\
  pages_dir s = py_join (parse_path r) "pages".
Proof. unfold GitLFSVideoShare. intro H. apply setup_repository_fields in H. exact H. Qed.

Lemma html_contains_source_tag (title rel : string) :
  contains (html_content title rel) (source_tag rel).
Proof.
  exists (html_head title +++ "            "), (nl +++ html_tail).
  unfold html_content. rewrite !sappend_assoc. reflexivity.
Qed.

(** ** Failing commands *)

Lemma app_cons_split (a b l1 l2 : list event) (e : event) :
  a ++ b = l1 ++ e :: l2 ->
  (exists l2', a = l1 ++ e :: l2' /\ l2 = l2' ++ b) \/
  (exists l1', b = l1' ++ e :: l2).
Proof.
  intro H. apply app_eq_app in H as (l & [[Ha Hb] | [Ha Hb]]).
  - destruct l as [| x l].
    + right. exists []. rewrite app_nil_l in Hb. symmetry. exact Hb.
    + left. injection Hb as -> Hb. exists l. split; [exact Ha | exact Hb].
  - right. exists l. exact Hb.
Qed.

Lemma print_not_fail (e : event) : is_print e -> runner_fail e = false.
Proof. destruct e; simpl; tauto. Qed.

Lemma quiet_fail_stop {A} (m : M A) : quiet m -> fail_stop m.
Proof.
  intros Q w r w' H. destruct (Q w r w' H) as (l & L & F). exists l. split; [exact L |].
  intros l1 e l2 -> Hf. rewrite Forall_app in F. destruct F as [_ F].
  inversion F as [| ? ? He _]. congruence.
Qed.

Lemma fail_stop_log_of {A} (m : M A) : fail_stop m -> fail_stop_log m.
Proof.
  intros Fs w r w' H. destruct (Fs w r w' H) as (l & L & F). exists l. split; [exact L |].
  intros l1 e l2 E Hf. apply (F l1 e l2 E Hf).
Qed.

Lemma fail_stop_bind {A B} (m : M A) (f : A -> M B) :
  fail_stop m -> (forall a, fail_stop (f a)) -> fail_stop (bind m f).
Proof.
  intros Fm Ff w r w' H. unfold bind in H.
  destruct (m w) as [[a | ex] w1] eqn:E.
  - destruct (Fm _ _ _ E) as (l & L & F). destruct (Ff a _ _ _ H) as (l' & L' & F').
    exists (l ++ l'). split; [rewrite L', L, app_assoc; reflexivity |].
    intros l1 e l2 Hs Hf. apply app_cons_split in Hs as [(l2' & Ha & _) | (l1' & Hb)].
    + destruct (F _ _ _ Ha Hf) as [[] _].
    + exact (F' _ _ _ Hb Hf).
  - injection H as <- <-. exact (Fm _ _ _ E).
Qed.

Lemma quiet_bind {A B} (m : M A) (f : A -> M B) :
  quiet m -> (forall a, quiet (f a)) -> quiet (bind m f).
Proof.
  intros Qm Qf w r w' H. unfold bind in H.
  destruct (m w) as [[a | ex] w1] eqn:E.
  - destruct (Qm _ _ _ E) as (l & L & F). destruct (Qf a _ _ _ H) as (l' & L' & F').
    exists (l ++ l'). split; [rewrite L', L, app_assoc; reflexivity | apply Forall_app; auto].
  - injection H as <- <-. exact (Qm _ _ _ E).
Qed.

Lemma fail_stop_try {A} (m : M A) (h : string -> M A) :
  fail_stop m -> (forall s, loud (h s)) -> fail_stop (try_except m h).
Proof.
  intros Fm Lh w r w' H. unfold try_except in H.
  destruct (m w) as [rm w1] eqn:E. destruct (Fm _ _ _ E) as (l & L & F).
  destruct rm as [a | [s | c]];
    [injection H as <- <-; exists l; split; [exact L | exact F] | |
     injection H as <- <-; exists l; split; [exact L | exact F]].
  destruct (Lh s _ _ _ H) as (l' & L' & P' & X').
  exists (l ++ l'). split; [rewrite L', L, app_assoc; reflexivity |].
  intros l1 e l2 Hs Hf. apply app_cons_split in Hs as [(l2' & Ha & ->) | (l1' & Hb)].
  - split; [exact X' |]. apply Forall_app. split; [| exact P'].
    exact (proj2 (F _ _ _ Ha Hf)).
  - rewrite Hb, Forall_app in P'. destruct P' as [_ P']. inversion P' as [| ? ? Pe _].
    rewrite (print_not_fail e Pe) in Hf. discriminate Hf.
Qed.

Lemma fail_stop_log_try {A} (m : M A) (h : string -> M A) :
  fail_stop m -> (forall s, prints_only (h s)) -> fail_stop_log (try_except m h).
Proof.
  intros Fm Ph w r w' H. unfold try_except in H.
  destruct (m w) as [rm w1] eqn:E. destruct (Fm _ _ _ E) as (l & L & F).
  destruct rm as [a | [s | c]];
    [injection H as <- <-; exists l; split; [exact L | intros; apply (F l1 e l2); assumption] | |
     injection H as <- <-; exists l; split; [exact L | intros; apply (F l1 e l2); assumption]].
  destruct (Ph s _ _ _ H) as (l' & L' & P').
  exists (l ++ l'). split; [rewrite L', L, app_assoc; reflexivity |].
  intros l1 e l2 Hs Hf. apply app_cons_split in Hs as [(l2' & Ha & ->) | (l1' & Hb)].
  - apply Forall_app. split; [| exact P']. exact (proj2 (F _ _ _ Ha Hf)).
  - rewrite Hb, Forall_app in P'. destruct P' as [_ P']. inversion P' as [| ? ? Pe _].
    rewrite (print_not_fail e Pe) in Hf. discriminate Hf.
Qed.

Lemma fail_stop_log_bind {A B} (m : M A) (f : A -> M B) :
  quiet m -> (forall a, fail_stop_log (f a)) -> fail_stop_log (bind m f).
Proof.
  intros Qm Ff w r w' H. unfold bind in H.
  destruct (m w) as [[a | ex] w1] eqn:E.
  - destruct (Qm _ _ _ E) as (l & L & F). destruct (Ff a _ _ _ H) as (l' & L' & F').
    exists (l ++ l'). split; [rewrite L', L, app_assoc; reflexivity |].
    intros l1 e l2 Hs Hf. apply app_cons_split in Hs as [(l2' & Ha & _) | (l1' & Hb)].
    + rewrite Ha, Forall_app in F. destruct F as [_ F]. inversion F. congruence.
    + exact (F' _ _ _ Hb Hf).
  - injection H as <- <-. destruct (Qm _ _ _ E) as (l & L & F). exists l.
    split; [exact L |]. intros l1 e l2 -> Hf. rewrite Forall_app in F. destruct F as [_ F].
    inversion F. congruence.
Qed.

Ltac solve_quiet H :=
  repeat match type of H with
    | (let (_, _) := ?p in _) = _ => destruct p eqn:?
    | (match ?x with _ => _ end) = _ => destruct x eqn:?
    | (if ?b then _ else _) = _ => destruct b eqn:?
  end;
  injection H as <- <-;
  first [ exists []; split; [symmetry; apply app_nil_r | constructor]
        | eexists; split; [reflexivity | repeat constructor] ].

Create HintDb fstop.

Lemma quiet_ret {A} (a : A) : quiet (ret a).
Proof. intros w r w' H. unfold ret in H. solve_quiet H. Qed.
Lemma quiet_raise {A} (ex : exn) : quiet (@raise A ex).
Proof. intros w r w' H. unfold raise in H. solve_quiet H. Qed.
Lemma quiet_print (s : string) : quiet (print s).
Proof. intros w r w' H. unfold print, emit in H. solve_quiet H. Qed.
Lemma quiet_input (s : string) : quiet (input s).
Proof. intros w r w' H. unfold input in H. solve_quiet H. Qed.
Lemma quiet_mkdir (p : pypath) : quiet (mkdir_exist_ok p).
Proof. intros w r w' H. unfold mkdir_exist_ok in H. solve_quiet H. Qed.
Lemma quiet_chdir (p : pypath) : quiet (chdir p).
Proof. intros w r w' H. unfold chdir in H. solve_quiet H. Qed.
Lemma quiet_path_exists (p : pypath) : quiet (path_exists p).
Proof. intros w r w' H. unfold path_exists in H. solve_quiet H. Qed.
Lemma quiet_os_path_exists (s : string) : quiet (os_path_exists s).
Proof.
  intros w r w' H. unfold os_path_exists, ret, path_exists in H.
  destruct (String.eqb s ""); solve_quiet H.
Qed.
Lemma quiet_write (p : pypath) (c : content) : quiet (write_file p c).
Proof. intros w r w' H. unfold write_file in H. solve_quiet H. Qed.
Lemma quiet_copy2 (src : string) (p : pypath) : quiet (copy2 src p).
Proof. intros w r w' H. unfold copy2 in H. solve_quiet H. Qed.
Lemma quiet_now : quiet now.
Proof. intros w r w' H. unfold now in H. solve_quiet H. Qed.
Lemma quiet_relpath (p q : pypath) : quiet (os_path_relpath p q).
Proof. intros w r w' H. unfold os_path_relpath in H. solve_quiet H. Qed.
Lemma quiet_sys_exit {A} (c : Z) : quiet (@sys_exit A c).
Proof. intros w r w' H. unfold sys_exit, raise in H. solve_quiet H. Qed.

Lemma quiet_subprocess (args : list string) :
  runner_cmd args = false -> quiet (subprocess_run args).
Proof.
  intros Hc w r w' H. unfold subprocess_run in H.
  assert (F : forall c res, Forall (fun e => runner_fail e = false) [ERun c args res]).
  { intros c res. constructor; [simpl; rewrite Hc; reflexivity | constructor]. }
  destruct (w_git w args (w_cwd w)) as [[[rc o] e] |]; cbv zeta in H;
    [destruct (_ && _ && _) |]; injection H as <- <-; eexists; split;
    solve [reflexivity | apply F].
Qed.

Lemma quiet_try_bare {A} (m h : M A) : quiet m -> quiet h -> quiet (try_bare m h).
Proof.
  intros Qm Qh w r w' H. unfold try_bare in H.
  destruct (m w) as [[a | ex] w1] eqn:E.
  - injection H as <- <-. exact (Qm _ _ _ E).
  - destruct (Qm _ _ _ E) as (l & L & F). destruct (Qh _ _ _ H) as (l' & L' & F').
    exists (l ++ l'). split; [rewrite L', L, app_assoc; reflexivity | apply Forall_app; auto].
Qed.

#[local] Hint Resolve quiet_ret quiet_raise quiet_print quiet_input quiet_mkdir quiet_chdir
  quiet_path_exists quiet_os_path_exists quiet_write quiet_copy2 quiet_now quiet_relpath
  quiet_sys_exit quiet_bind quiet_try_bare : fstop.

Lemma quiet_create_player_page (s : GitLFSVideoShare_obj) (p : pypath) (t : string) :
  quiet (create_player_page s p t).
Proof. unfold create_player_page. auto with fstop. Qed.

Lemma quiet_get_github_url : quiet _get_github_url.
Proof.
  unfold _get_github_url. apply quiet_bind.
  - apply quiet_try_bare; [| auto with fstop]. apply quiet_bind.
    + apply quiet_subprocess. reflexivity.
    + intros [[rc o] e]. destruct (Z.eqb rc 0); auto with fstop.
  - intros [u |]; auto with fstop.
Qed.

Lemma singleton_split (a e : event) (l1 l2 : list event) :
  [a] = l1 ++ e :: l2 -> e = a /\ l2 = [].
Proof.
  destruct l1 as [| x [| y l1]]; simpl; intro H; injection H as H1 H2;
    [auto | discriminate H2 | discriminate H2].
Qed.

Lemma fail_stop_run_command (cmd : list string) : fail_stop (_run_command cmd).
Proof.
  intros w r w' H. unfold _run_command, bind, subprocess_run in H.
  destruct (w_git w cmd (w_cwd w)) as [[[rc o] e] |] eqn:G.
  - cbv zeta in H. destruct (Z.eqb rc 0) eqn:Z0; unfold raise, ret in H; simpl negb in H;
      cbv iota in H; injection H as <- <-.
    + eexists. split; [destruct (_ && _ && _); reflexivity |].
      intros l1 ev l2 Hs Hf. apply singleton_split in Hs as [-> ->].
      simpl in Hf. rewrite Z0, andb_false_r in Hf. discriminate Hf.
    + eexists. split; [destruct (_ && _ && _); reflexivity |].
      intros l1 ev l2 Hs Hf. apply singleton_split in Hs as [-> ->].
      split; [exact I | constructor].
  - injection H as <- <-. eexists. split; [reflexivity |].
    intros l1 ev l2 Hs Hf. apply singleton_split in Hs as [-> ->].
    split; [exact I | constructor].
Qed.

#[local] Hint Resolve quiet_create_player_page quiet_get_github_url : fstop.
#[local] Hint Resolve fail_stop_run_command fail_stop_bind quiet_fail_stop : fstop.

Lemma loud_reraise (s : string) : loud (@raise share_info (PyExc s)).
Proof.
  intros w r w' H. unfold raise in H. injection H as <- <-.
  exists []. split; [symmetry; apply app_nil_r | split; [constructor | exact I]].
Qed.

Ltac fs_chain :=
  repeat (apply fail_stop_bind; [auto with fstop | intro]); auto with fstop.

Lemma fail_stop_share_video (s : GitLFSVideoShare_obj) (vp : string) :
  fail_stop (share_video s vp).
Proof.
  unfold share_video. apply fail_stop_try; [| intro; apply loud_reraise].
  cbv zeta. apply fail_stop_bind; [auto with fstop | intros _].
  apply fail_stop_bind; [auto with fstop | intros pp].
  apply fail_stop_bind; [destruct (relative_to pp (repo_path s)); auto with fstop | intros rel].
  fs_chain.
Qed.

Lemma loud_setup_handler (e : string) :
  loud (print ("仓库设置失败: " +++ e) ;;; @sys_exit GitLFSVideoShare_obj 1%Z).
Proof.
  intros w r w' H. unfold bind, print, emit, sys_exit, raise in H. injection H as <- <-.
  eexists. split; [reflexivity | split; [repeat constructor | exact I]].
Qed.

Lemma fail_stop_constructor (repo : string) : fail_stop (GitLFSVideoShare repo).
Proof.
  unfold GitLFSVideoShare, setup_repository. apply fail_stop_try; [| apply loud_setup_handler].
  apply fail_stop_bind; [auto with fstop | intros _].
  apply fail_stop_bind; [auto with fstop | intros _].
  apply fail_stop_bind; [auto with fstop | intros _].
  apply fail_stop_bind; [auto with fstop | intros initialized].
  apply fail_stop_bind; [destruct (negb initialized); fs_chain | intros _].
  fs_chain.
Qed.

Lemma prints_only_main_handler (e : string) : prints_only (print (nl +++ "错误：" +++ e)).
Proof.
  intros w r w' H. unfold print, emit in H. injection H as <- <-.
  eexists. split; [reflexivity | repeat constructor].
Qed.

Lemma fail_stop_log_main : fail_stop_log main.
Proof.
  unfold main. apply fail_stop_log_bind; [auto with fstop | intros _].
  apply fail_stop_log_bind; [auto with fstop | intros r].
  unfold main_body. apply fail_stop_log_try; [| apply prints_only_main_handler].
  apply fail_stop_bind; [apply fail_stop_constructor | intros s].
  apply fail_stop_bind; [auto with fstop | intros v]. cbv zeta.
  apply fail_stop_bind; [auto with fstop | intros ex].
  destruct (negb ex); [auto with fstop |].
  apply fail_stop_bind; [auto with fstop | intros _].
  apply fail_stop_bind; [apply fail_stop_share_video | intros info].
  fs_chain.
Qed.

(** ** Working directory *)

Lemma print_cwd_ok (d : list string) (e : event) : is_print e -> cwd_ok d e.
Proof. destruct e; simpl; tauto. Qed.

Lemma keeps_cwd_bind {A B} (m : M A) (f : A -> M B) :
  keeps_cwd m -> (forall a, keeps_cwd (f a)) -> keeps_cwd (bind m f).
Proof.
  intros Km Kf w r w' H. unfold bind in H.
  destruct (m w) as [[a | ex] w1] eqn:E; [| injection H as <- <-; exact (Km _ _ _ E)].
  destruct (Km _ _ _ E) as (C & l & L & F). destruct (Kf a _ _ _ H) as (C' & l' & L' & F').
  rewrite C in C', F'. split; [exact C' |].
  exists (l ++ l'). split; [rewrite L', L, app_assoc; reflexivity | apply Forall_app; auto].
Qed.

Lemma keeps_cwd_try_bare {A} (m h : M A) : keeps_cwd m -> keeps_cwd h -> keeps_cwd (try_bare m h).
Proof.
  intros Km Kh w r w' H. unfold try_bare in H.
  destruct (m w) as [[a | ex] w1] eqn:E; [injection H as <- <-; exact (Km _ _ _ E) |].
  destruct (Km _ _ _ E) as (C & l & L & F). destruct (Kh _ _ _ H) as (C' & l' & L' & F').
  rewrite C in C', F'. split; [exact C' |].
  exists (l ++ l'). split; [rewrite L', L, app_assoc; reflexivity | apply Forall_app; auto].
Qed.

Lemma keeps_cwd_try {A} (m : M A) (h : string -> M A) :
  keeps_cwd m -> (forall s, keeps_cwd (h s)) -> keeps_cwd (try_except m h).
Proof.
  intros Km Kh w r w' H. unfold try_except in H.
  destruct (m w) as [[a | [s | c]] w1] eqn:E; try (injection H as <- <-; exact (Km _ _ _ E)).
  destruct (Km _ _ _ E) as (C & l & L & F). destruct (Kh s _ _ _ H) as (C' & l' & L' & F').
  rewrite C in C', F'. split; [exact C' |].
  exists (l ++ l'). split; [rewrite L', L, app_assoc; reflexivity | apply Forall_app; auto].
Qed.

Ltac all_cwd_ok :=
  repeat (apply Forall_cons; [simpl; first [exact I | reflexivity] |]); apply Forall_nil.

Ltac solve_keeps H :=
  repeat match type of H with
    | (let (_, _) := ?p in _) = _ => destruct p eqn:?
    | (match ?x with _ => _ end) = _ => destruct x eqn:?
    | (if ?b then _ else _) = _ => destruct b eqn:?
  end;
  (injection H as <- <-; split;
   [reflexivity
   | first [ exists []; split; [symmetry; apply app_nil_r | apply Forall_nil]
           | eexists; split; [reflexivity | all_cwd_ok] ] ]).

Lemma keeps_ret {A} (a : A) : keeps_cwd (ret a).
Proof. intros w r w' H. unfold ret in H. solve_keeps H. Qed.
Lemma keeps_raise {A} (ex : exn) : keeps_cwd (@raise A ex).
Proof. intros w r w' H. unfold raise in H. solve_keeps H. Qed.
Lemma keeps_print (s : string) : keeps_cwd (print s).
Proof. intros w r w' H. unfold print, emit in H. solve_keeps H. Qed.
Lemma keeps_input (s : string) : keeps_cwd (input s).
Proof. intros w r w' H. unfold input in H. solve_keeps H. Qed.
Lemma keeps_mkdir (p : pypath) : keeps_cwd (mkdir_exist_ok p).
Proof. intros w r w' H. unfold mkdir_exist_ok in H. solve_keeps H. Qed.
Lemma keeps_path_exists (p : pypath) : keeps_cwd (path_exists p).
Proof. intros w r w' H. unfold path_exists in H. solve_keeps H. Qed.
Lemma keeps_os_path_exists (s : string) : keeps_cwd (os_path_exists s).
Proof.
  intros w r w' H. unfold os_path_exists, ret, path_exists in H.
  destruct (String.eqb s ""); solve_keeps H.
Qed.
Lemma keeps_write (p : pypath) (c : content) : keeps_cwd (write_file p c).
Proof. intros w r w' H. unfold write_file in H. solve_keeps H. Qed.
Lemma keeps_copy2 (src : string) (p : pypath) : keeps_cwd (copy2 src p).
Proof. intros w r w' H. unfold copy2 in H. solve_keeps H. Qed.
Lemma keeps_now : keeps_cwd now.
Proof. intros w r w' H. unfold now in H. solve_keeps H. Qed.
Lemma keeps_relpath (p q : pypath) : keeps_cwd (os_path_relpath p q).
Proof. intros w r w' H. unfold os_path_relpath in H. solve_keeps H. Qed.
Lemma keeps_sys_exit {A} (c : Z) : keeps_cwd (@sys_exit A c).
Proof. intros w r w' H. unfold sys_exit, raise in H. solve_keeps H. Qed.

Lemma keeps_subprocess (args : list string) : keeps_cwd (subprocess_run args).
Proof.
  intros w r w' H. unfold subprocess_run in H.
  destruct (w_git w args (w_cwd w)) as [[[rc o] e] |]; cbv zeta in H;
    [destruct (_ && _ && _) |]; injection H as <- <-;
    (split; [reflexivity | eexists; split; [reflexivity | all_cwd_ok]]).
Qed.

Create HintDb kcwd.

#[local] Hint Resolve keeps_ret keeps_raise keeps_print keeps_input keeps_mkdir
  keeps_path_exists keeps_os_path_exists keeps_write keeps_copy2 keeps_now keeps_relpath
  keeps_sys_exit keeps_subprocess keeps_cwd_bind keeps_cwd_try_bare keeps_cwd_try : kcwd.

Ltac kc_chain :=
  repeat (apply keeps_cwd_bind; [auto with kcwd | intro]); auto with kcwd.

Lemma keeps_run_command (cmd : list string) : keeps_cwd (_run_command cmd).
Proof.
  unfold _run_command. apply keeps_cwd_bind; [auto with kcwd | intros [[rc o] e]].
  destruct (negb _); auto with kcwd.
Qed.

Lemma keeps_get_github_url : keeps_cwd _get_github_url.
Proof.
  unfold _get_github_url. apply keeps_cwd_bind.
  - apply keeps_cwd_try_bare; [| auto with kcwd]. apply keeps_cwd_bind; [auto with kcwd |].
    intros [[rc o] e]. destruct (Z.eqb rc 0); auto with kcwd.
  - intros [u |]; kc_chain.
Qed.

#[local] Hint Resolve keeps_run_command keeps_get_github_url : kcwd.

Lemma keeps_create_player_page (s : GitLFSVideoShare_obj) (p : pypath) (t : string) :
  keeps_cwd (create_player_page s p t).
Proof. unfold create_player_page. kc_chain. Qed.

#[local] Hint Resolve keeps_create_player_page : kcwd.

Lemma keeps_share_video (s : GitLFSVideoShare_obj) (vp : string) : keeps_cwd (share_video s vp).
Proof.
  unfold share_video. apply keeps_cwd_try; [| auto with kcwd].
  cbv zeta. apply keeps_cwd_bind; [auto with kcwd | intros _].
  apply keeps_cwd_bind; [auto with kcwd | intros pp].
  apply keeps_cwd_bind; [destruct (relative_to pp (repo_path s)); auto with kcwd | intros rel].
  kc_chain.
Qed.

Lemma no_cwd_mkdir (p : pypath) : no_cwd (mkdir_exist_ok p).
Proof.
  intros w r w' H. unfold mkdir_exist_ok in H.
  repeat match type of H with
    | (if ?b then _ else _) = _ => destruct b
    | (match ?o with Some _ => _ | None => _ end) = _ => destruct o
  end; injection H as <- <-; (split; [reflexivity |]);
  [exists [] .. | eexists]; (split; [first [symmetry; apply app_nil_r | reflexivity] |]);
  intro d; all_cwd_ok.
Qed.

Lemma no_cwd_print (s : string) : no_cwd (print s).
Proof.
  intros w r w' H. unfold print, emit in H. injection H as <- <-.
  split; [reflexivity | eexists; split; [reflexivity | intro d; all_cwd_ok]].
Qed.

Lemma no_cwd_bind {A B} (m : M A) (f : A -> M B) :
  no_cwd m -> (forall a, no_cwd (f a)) -> no_cwd (bind m f).
Proof.
  intros Km Kf w r w' H. unfold bind in H.
  destruct (m w) as [[a | ex] w1] eqn:E; [| injection H as <- <-; exact (Km _ _ _ E)].
  destruct (Km _ _ _ E) as (C & l & L & F). destruct (Kf a _ _ _ H) as (C' & l' & L' & F').
  rewrite C in C'. split; [exact C' |].
  exists (l ++ l'). split; [rewrite L', L, app_assoc; reflexivity | intro d; apply Forall_app; auto].
Qed.

Lemma enters_no_cwd_bind {A B} (m : M A) (f : A -> M B) (p : pypath) :
  no_cwd m -> (forall a, enters (f a) p) -> enters (bind m f) p.
Proof.
  intros Km Ef w r w' H. unfold bind in H.
  destruct (m w) as [[a | ex] w1] eqn:E.
  - destruct (Km _ _ _ E) as (C & l & L & F). destruct (Ef a _ _ _ H) as (C' & S' & l' & L' & F').
    rewrite C in C', S', F'. split; [exact C' |]. split; [exact S' |].
    exists (l ++ l'). split; [rewrite L', L, app_assoc; reflexivity | apply Forall_app; auto].
  - injection H as <- <-. destruct (Km _ _ _ E) as (C & l & L & F).
    split; [left; exact C |]. split; [intros a Ha; discriminate Ha |].
    exists l. split; [exact L | apply F].
Qed.

Lemma enters_chdir (p : pypath) {A} (k : unit -> M A) :
  (forall u, keeps_cwd (k u)) -> enters (bind (chdir p) k) p.
Proof.
  intros Kk w r w' H. unfold bind, chdir in H.
  destruct (ancestor_err w [] (resolve (w_cwd w) p)).
  { injection H as <- <-;
      (split; [left; reflexivity |]; split; [intros a Ha; discriminate Ha |]);
      exists []; (split; [symmetry; apply app_nil_r | constructor]). }
  destruct (is_dir w (resolve (w_cwd w) p)).
  - destruct (Kk tt _ _ _ H) as (C & l & L & F). cbn [log_ev set_cwd w_cwd w_log] in C, L, F.
    split; [right; exact C |]. split; [intros; exact C |].
    exists (EChdir (resolve (w_cwd w) p) :: l). split; [rewrite L, <- app_assoc; reflexivity |].
    constructor; [reflexivity | exact F].
  - destruct (is_file w _); injection H as <- <-;
      (split; [left; reflexivity |]; split; [intros a Ha; discriminate Ha |]);
      exists []; (split; [symmetry; apply app_nil_r | constructor]).
Qed.

Lemma enters_try {A} (m : M A) (h : string -> M A) (p : pypath) :
  enters m p -> (forall s, no_cwd (h s)) ->
  (forall s w r w', h s w = (r, w') -> is_exn r) -> enters (try_except m h) p.
Proof.
  intros Em Nh Xh w r w' H. unfold try_except in H.
  destruct (m w) as [[a | [s | c]] w1] eqn:E; try (injection H as <- <-; exact (Em _ _ _ E)).
  destruct (Em _ _ _ E) as (C & _ & l & L & F). destruct (Nh s _ _ _ H) as (C' & l' & L' & F').
  rewrite <- C' in C. split; [exact C |]. split; [intros a Ha; subst r; destruct (Xh s _ _ _ H) |].
  exists (l ++ l'). split; [rewrite L', L, app_assoc; reflexivity | apply Forall_app; auto].
Qed.

Lemma enters_keeps_bind {A B} (m : M A) (f : A -> M B) (p : pypath) :
  enters m p -> (forall a, keeps_cwd (f a)) -> enters (bind m f) p.
Proof.
  intros Em Kf w r w' H. unfold bind in H.
  destruct (m w) as [[a | ex] w1] eqn:E.
  2:{ injection H as <- <-. destruct (Em _ _ _ E) as (C & _ & LF).
      split; [exact C | split; [intros b Hb; discriminate Hb | exact LF]]. }
  destruct (Em _ _ _ E) as (C & S & l & L & F). specialize (S a eq_refl).
  destruct (Kf a _ _ _ H) as (C' & l' & L' & F'). rewrite S in C', F'.
  split; [right; exact C' |]. split; [intros; exact C' |].
  exists (l ++ l'). split; [rewrite L', L, app_assoc; reflexivity | apply Forall_app; auto].
Qed.

Lemma enters_weak_try {A} (m : M A) (h : string -> M A) (p : pypath) :
  enters m p -> (forall s, no_cwd (h s)) -> enters_weak (try_except m h) p.
Proof.
  intros Em Nh w r w' H. unfold try_except in H.
  destruct (m w) as [[a | [s | c]] w1] eqn:E;
    try (injection H as <- <-; destruct (Em _ _ _ E) as (C & _ & LF); exact (conj C LF)).
  destruct (Em _ _ _ E) as (C & _ & l & L & F). destruct (Nh s _ _ _ H) as (C' & l' & L' & F').
  rewrite <- C' in C. split; [exact C |].
  exists (l ++ l'). split; [rewrite L', L, app_assoc; reflexivity | apply Forall_app; auto].
Qed.

Lemma enters_constructor (repo : string) : enters (GitLFSVideoShare repo) (parse_path repo).
Proof.
  unfold GitLFSVideoShare, setup_repository. cbn [repo_path videos_dir pages_dir].
  apply enters_try.
  - apply enters_no_cwd_bind; [apply no_cwd_mkdir | intros _].
    apply enters_no_cwd_bind; [apply no_cwd_mkdir | intros _].
    apply enters_chdir. intros _. kc_chain.
    destruct (negb _); kc_chain.
  - intro s. apply no_cwd_bind; [apply no_cwd_print | intros _].
    intros w r w' H. unfold sys_exit, raise in H. injection H as <- <-.
    split; [reflexivity | exists []; split; [symmetry; apply app_nil_r | constructor]].
  - intros s w r w' H. unfold bind, print, emit, sys_exit, raise in H. injection H as <- <-.
    exact I.
Qed.

Lemma enters_main_body (repo : string) : enters_weak (main_body repo) (parse_path repo).
Proof.
  unfold main_body. apply enters_weak_try; [| intro; apply no_cwd_print].
  apply enters_keeps_bind; [apply enters_constructor | intros s].
  apply keeps_cwd_bind; [auto with kcwd | intros v]. cbv zeta.
  apply keeps_cwd_bind; [auto with kcwd | intros ex].
  destruct (negb ex); [auto with kcwd |].
  apply keeps_cwd_bind; [auto with kcwd | intros _].
  apply keeps_cwd_bind; [apply keeps_share_video | intros info].
  kc_chain.
Qed.

Lemma os_path_exists_pure (s : string) (w : world) :
  os_path_exists s w = (fst (os_path_exists s w), w).
Proof. unfold os_path_exists, ret, path_exists. destruct (String.eqb s ""); reflexivity. Qed.

Lemma os_path_exists_after_input (s : string) (w : world) (e : event) (i : list string) :
  fst (os_path_exists s (set_stdin (log_ev w e) i)) = fst (os_path_exists s w).
Proof. unfold os_path_exists, ret, path_exists. destruct (String.eqb s ""); reflexivity. Qed.

(** ** Remote URLs, stripping and the page text *)

Lemma replace_fuel_absent (old new s : string) (f : nat) :
  substringb old s = false -> replace_fuel f old new s = s.
Proof.
  revert f. induction s as [| c r IH]; intros f H; destruct f; try reflexivity.
  simpl in H. apply orb_false_iff in H as [H1 H2].
  simpl replace_fuel. rewrite H1, (IH f H2). reflexivity.
Qed.

Lemma prefix_substring (t s : string) (n : nat) :
  String.prefix t (substring 0 n s) = true -> String.prefix t s = true.
Proof.
  revert s n. induction t as [| a t IH]; intros s n H; [destruct s; reflexivity |].
  destruct s as [| c r]; destruct n as [| n]; simpl in H |- *; try discriminate H.
  destruct (ascii_dec a c); [exact (IH r n H) | discriminate H].
Qed.

Lemma substringb_cons (t : string) (c : ascii) (r : string) :
  substringb t (String c r) = String.prefix t (String c r) || substringb t r.
Proof. reflexivity. Qed.

Lemma substringb_substring (t s : string) (n : nat) :
  substringb t s = false -> substringb t (substring 0 n s) = false.
Proof.
  revert n. induction s as [| c r IH]; intros n H.
  - destruct n; exact H.
  - rewrite substringb_cons in H. apply orb_false_iff in H as [H1 H2].
    destruct n as [| n].
    + simpl substring. destruct t; [discriminate H1 | reflexivity].
    + change (substring 0 (S n) (String c r)) with (String c (substring 0 n r)).
      rewrite substringb_cons. apply orb_false_iff. split; [| exact (IH n H2)].
      destruct (String.prefix t (String c (substring 0 n r))) eqn:E; [| reflexivity].
      apply (prefix_substring t (String c r) (S n)) in E. congruence.
Qed.

Lemma prefix_trans (a b s : string) :
  String.prefix a b = true -> String.prefix b s = true -> String.prefix a s = true.
Proof.
  revert b s. induction a as [| x a IH]; intros b s H1 H2; [destruct s; reflexivity |].
  destruct b as [| y b]; [discriminate H1 |]. destruct s as [| z s]; [discriminate H2 |].
  simpl in H1, H2 |- *. destruct (ascii_dec x y); [| discriminate H1].
  destruct (ascii_dec y z); [| discriminate H2]. subst.
  destruct (ascii_dec z z); [exact (IH b s H1 H2) | contradiction].
Qed.

Lemma substringb_prefix (t a s : string) :
  substringb t a = true -> String.prefix a s = true -> substringb t s = true.
Proof.
  revert s. induction a as [| x a IH]; intros s H1 H2.
  - simpl in H1. destruct s; [exact H1 |]. rewrite substringb_cons.
    destruct t; [reflexivity | discriminate H1].
  - destruct s as [| y s]; [discriminate H2 |]. rewrite substringb_cons in H1. rewrite substringb_cons.
    apply orb_true_iff in H1 as [H1 | H1].
    + rewrite (prefix_trans _ _ _ H1 H2). reflexivity.
    + simpl in H2. destruct (ascii_dec x y); [| discriminate H2].
      rewrite (IH s H1 H2). apply orb_true_r.
Qed.







Lemma lstrip_stop (f : ascii -> bool) (c : ascii) (r : string) :
  f c = false -> lstrip_by f (String c r) = String c r.
Proof. intro H. simpl. rewrite H. reflexivity. Qed.




Lemma contains_app_l (a b t : string) : contains a t -> contains (a +++ b) t.
Proof.
  intros (pre & post & ->). exists pre, (post +++ b). rewrite !sappend_assoc. reflexivity.
Qed.

Lemma contains_app_r (a b t : string) : contains b t -> contains (a +++ b) t.
Proof. intros (pre & post & ->). exists (a +++ pre), post. rewrite !sappend_assoc. reflexivity. Qed.

Ltac find_line :=
  repeat first [ apply contains_app_l; exists "    ", nl; rewrite !sappend_assoc; reflexivity
               | apply contains_app_r ].


(** ** Which exceptions an operation raises *)

Lemma pyexc_bind {A B} (m : M A) (f : A -> M B) :
  pyexc_only m -> (forall a, pyexc_only (f a)) -> pyexc_only (bind m f).
Proof.
  intros Pm Pf w e w' H. unfold bind in H. destruct (m w) as [[a | ex] w1] eqn:E.
  - exact (Pf a _ _ _ H).
  - injection H as <- <-. exact (Pm _ _ _ E).
Qed.

Lemma pyexc_try_bare {A} (m h : M A) : pyexc_only h -> pyexc_only (try_bare m h).
Proof.
  intros Ph w e w' H. unfold try_bare in H. destruct (m w) as [[a | ex] w1] eqn:E.
  - discriminate H.
  - exact (Ph _ _ _ H).
Qed.

Lemma pyexc_try {A} (m : M A) (h : string -> M A) :
  pyexc_only m -> (forall s, pyexc_only (h s)) -> pyexc_only (try_except m h).
Proof.
  intros Pm Ph w e w' H. unfold try_except in H. destruct (m w) as [[a | [s | c]] w1] eqn:E.
  - discriminate H.
  - exact (Ph s _ _ _ H).
  - injection H as <- <-. exact (Pm _ _ _ E).
Qed.

Ltac solve_pyexc H :=
  repeat match type of H with
    | (let (_, _) := ?p in _) = _ => destruct p eqn:?
    | (match ?x with _ => _ end) = _ => destruct x eqn:?
    | (if ?b then _ else _) = _ => destruct b eqn:?
  end;
  try discriminate H; injection H as <- <-; eexists; reflexivity.

Create HintDb pyexc.

Lemma pyexc_ret {A} (a : A) : pyexc_only (ret a).
Proof. intros w e w' H. discriminate H. Qed.

Lemma pyexc_raise {A} (s : string) : pyexc_only (@raise A (PyExc s)).
Proof. intros w e w' H. unfold raise in H. solve_pyexc H. Qed.

Lemma pyexc_print (s : string) : pyexc_only (print s).
Proof. intros w e w' H. discriminate H. Qed.

Lemma pyexc_input (s : string) : pyexc_only (input s).
Proof. intros w e w' H. unfold input in H. solve_pyexc H. Qed.

Lemma pyexc_mkdir (p : pypath) : pyexc_only (mkdir_exist_ok p).
Proof. intros w e w' H. unfold mkdir_exist_ok in H. solve_pyexc H. Qed.

Lemma pyexc_chdir (p : pypath) : pyexc_only (chdir p).
Proof. intros w e w' H. unfold chdir in H. solve_pyexc H. Qed.

Lemma pyexc_path_exists (p : pypath) : pyexc_only (path_exists p).
Proof. intros w e w' H. discriminate H. Qed.

Lemma pyexc_os_path_exists (s : string) : pyexc_only (os_path_exists s).
Proof.
  intros w e w' H. unfold os_path_exists, ret, path_exists in H.
  destruct (String.eqb s ""); discriminate H.
Qed.

Lemma pyexc_write (p : pypath) (c : content) : pyexc_only (write_file p c).
Proof. intros w e w' H. unfold write_file in H. solve_pyexc H. Qed.

Lemma pyexc_copy2 (src : string) (p : pypath) : pyexc_only (copy2 src p).
Proof. intros w e w' H. unfold copy2 in H. solve_pyexc H. Qed.

Lemma pyexc_now : pyexc_only now.
Proof. intros w e w' H. discriminate H. Qed.

Lemma pyexc_relpath (p q : pypath) : pyexc_only (os_path_relpath p q).
Proof. intros w e w' H. discriminate H. Qed.

Lemma pyexc_subprocess (args : list string) : pyexc_only (subprocess_run args).
Proof. intros w e w' H. unfold subprocess_run in H. solve_pyexc H. Qed.

#[local] Hint Resolve pyexc_ret pyexc_raise pyexc_print pyexc_input pyexc_mkdir pyexc_chdir
  pyexc_path_exists pyexc_os_path_exists pyexc_write pyexc_copy2 pyexc_now pyexc_relpath
  pyexc_subprocess pyexc_bind pyexc_try_bare pyexc_try : pyexc.

Ltac px_step :=
  first [ progress cbv zeta
        | apply pyexc_bind; [ | intro ]
        | apply pyexc_try_bare
        | apply pyexc_try; [ | intro ]
        | progress auto with pyexc
        | match goal with
          | |- pyexc_only (match ?x with _ => _ end) => destruct x
          | |- pyexc_only (if ?b then _ else _) => destruct b
          end ].

Ltac px_chain := repeat px_step.

Lemma pyexc_run_command (cmd : list string) : pyexc_only (_run_command cmd).
Proof.
  unfold _run_command. apply pyexc_bind; [auto with pyexc | intros [[rc o] e]].
  destruct (negb _); auto with pyexc.
Qed.

Lemma pyexc_get_github_url : pyexc_only _get_github_url.
Proof.
  unfold _get_github_url. apply pyexc_bind; [apply pyexc_try_bare; auto with pyexc |].
  intros [u |]; px_chain.
Qed.

#[local] Hint Resolve pyexc_run_command pyexc_get_github_url : pyexc.

Lemma pyexc_create_player_page (s : GitLFSVideoShare_obj) (p : pypath) (t : string) :
  pyexc_only (create_player_page s p t).
Proof. unfold create_player_page. px_chain. Qed.

#[local] Hint Resolve pyexc_create_player_page : pyexc.

Lemma try_reraise {A} (m : M A) (pre : string) (w : world) (e : exn) (w' : world) :
  pyexc_only m -> try_except m (fun s => raise (PyExc (pre +++ s))) w = (inr e, w') ->
  exists msg, e = PyExc (pre +++ msg).
Proof.
  intros Pm H. unfold try_except in H. destruct (m w) as [[a | [s | c]] w1] eqn:E.
  - discriminate H.
  - unfold raise in H. injection H as <- <-. exists s. reflexivity.
  - destruct (Pm _ _ _ E) as [s Hs]. discriminate Hs.
Qed.

Lemma constructor_raises_exit (repo : string) (w w' : world) (e : exn) :
  GitLFSVideoShare repo w = (inr e, w') -> e = SysExit 1.
Proof.
  unfold GitLFSVideoShare, setup_repository, try_except. cbv zeta.
  match goal with
  | |- match ?m w with _ => _ end = _ -> _ =>
      assert (Pm : pyexc_only m) by px_chain;
      destruct (m w) as [[a | [s | c]] w1] eqn:B
  end; intro H.
  - discriminate H.
  - cbn in H. injection H as <- _. reflexivity.
  - destruct (Pm _ _ _ B) as [s Hs]. discriminate Hs.
Qed.

(** ** What an operation logs *)

Section LogOnly.

Variable I : list (list string) -> Prop.

Hypothesis I_app : forall ds ds', I ds -> I (ds ++ ds').

Variable P : event -> bool.

Lemma lo_bind {A B} (m : M A) (f : A -> M B) :
  log_only I P m -> (forall a, log_only I P (f a)) -> log_only I P (bind m f).
Proof.
  intros Hm Hf w r w' Iw H. unfold bind in H. destruct (m w) as [[a | e] w1] eqn:E.
  - destruct (Hm _ _ _ Iw E) as (I1 & l1 & L1 & F1).
    destruct (Hf a _ _ _ I1 H) as (I2 & l2 & L2 & F2).
    split; [exact I2 |]. exists (l1 ++ l2). rewrite L2, L1, app_assoc.
    split; [reflexivity | apply Forall_app; split; assumption].
  - injection H as <- <-. exact (Hm _ _ _ Iw E).
Qed.

Lemma lo_try {A} (m : M A) (h : string -> M A) :
  log_only I P m -> (forall s, log_only I P (h s)) -> log_only I P (try_except m h).
Proof.
  intros Hm Hh w r w' Iw H. unfold try_except in H. destruct (m w) as [[a | [s | c]] w1] eqn:E.
  - injection H as <- <-. exact (Hm _ _ _ Iw E).
  - destruct (Hm _ _ _ Iw E) as (I1 & l1 & L1 & F1).
    destruct (Hh s _ _ _ I1 H) as (I2 & l2 & L2 & F2).
    split; [exact I2 |]. exists (l1 ++ l2). rewrite L2, L1, app_assoc.
    split; [reflexivity | apply Forall_app; split; assumption].
  - injection H as <- <-. exact (Hm _ _ _ Iw E).
Qed.

Lemma lo_try_bare {A} (m h : M A) : log_only I P m -> log_only I P h -> log_only I P (try_bare m h).
Proof.
  intros Hm Hh w r w' Iw H. unfold try_bare in H. destruct (m w) as [[a | e] w1] eqn:E.
  - injection H as <- <-. exact (Hm _ _ _ Iw E).
  - destruct (Hm _ _ _ Iw E) as (I1 & l1 & L1 & F1).
    destruct (Hh _ _ _ I1 H) as (I2 & l2 & L2 & F2).
    split; [exact I2 |]. exists (l1 ++ l2). rewrite L2, L1, app_assoc.
    split; [reflexivity | apply Forall_app; split; assumption].
Qed.

Lemma lo_same {A} (m : M A) : (forall w r w', m w = (r, w') -> w' = w) -> log_only I P m.
Proof.
  intros Hm w r w' Iw H. rewrite (Hm _ _ _ H). split; [exact Iw |].
  exists []. split; [symmetry; apply app_nil_r | constructor].
Qed.

Lemma lo_one {A} (m : M A) :
  (forall w r w', m w = (r, w') ->
     w' = w \/ exists e ds, P e = true /\ w_dirs w' = w_dirs w ++ ds /\ w_log w' = w_log w ++ [e]) ->
  log_only I P m.
Proof.
  intros Hm w r w' Iw H. destruct (Hm _ _ _ H) as [-> | (e & ds & Pe & D & L)].
  - split; [exact Iw |]. exists []. split; [symmetry; apply app_nil_r | constructor].
  - rewrite D. split; [apply I_app; exact Iw |]. exists [e]. split; [exact L | repeat constructor; exact Pe].
Qed.

Lemma lo_ret {A} (a : A) : log_only I P (ret a).
Proof. apply lo_same. intros w r w' H. injection H as _ <-. reflexivity. Qed.

Lemma lo_raise {A} (ex : exn) : log_only I P (@raise A ex).
Proof. apply lo_same. intros w r w' H. injection H as _ <-. reflexivity. Qed.

Lemma lo_sys_exit {A} (c : Z) : log_only I P (@sys_exit A c).
Proof. apply lo_raise. Qed.

Lemma lo_path_exists (p : pypath) : log_only I P (path_exists p).
Proof. apply lo_same. intros w r w' H. injection H as _ <-. reflexivity. Qed.

Lemma lo_os_path_exists (s : string) : log_only I P (os_path_exists s).
Proof.
  apply lo_same. intros w r w' H. unfold os_path_exists, ret, path_exists in H.
  destruct (String.eqb s ""); injection H as _ <-; reflexivity.
Qed.

Lemma lo_relpath (p q : pypath) : log_only I P (os_path_relpath p q).
Proof. apply lo_same. intros w r w' H. injection H as _ <-. reflexivity. Qed.

Ltac one_event H :=
  cbv zeta in H;
  repeat match type of H with
    | (let (_, _) := ?p in _) = _ => destruct p eqn:?
    | (match ?x with _ => _ end) = _ => destruct x eqn:?
    | (if ?b then _ else _) = _ => destruct b eqn:?
    end;
  injection H as _ <-;
  repeat match goal with |- context [if ?b then _ else _] => destruct b end;
  solve [ left; reflexivity
        | right; eexists; exists [];
          split; [match goal with Hp : _ |- _ => apply Hp end | split; [symmetry; apply app_nil_r | reflexivity]]
        | right; eexists; eexists; split; [eassumption | split; reflexivity]
        | right; eexists; eexists;
          split; [match goal with Hp : _ |- _ => apply Hp end | split; reflexivity] ].

Lemma lo_now : log_only I P now.
Proof.
  intros w r w' Iw H. injection H as _ <-. split; [exact Iw |].
  exists []. split; [symmetry; apply app_nil_r | constructor].
Qed.

Lemma lo_print (s : string) : P (EPrint s) = true -> log_only I P (print s).
Proof. intro HP. apply lo_one. intros w r w' H. unfold print, emit in H. one_event H. Qed.

Lemma lo_input (s : string) : P (EPrompt s) = true -> log_only I P (input s).
Proof.
  intro HP. intros w r w' Iw H. unfold input in H.
  destruct (w_stdin _) as [| x rest]; injection H as _ <-;
    (split; [exact Iw | exists [EPrompt s]; split; [reflexivity | repeat constructor; exact HP]]).
Qed.

Lemma lo_mkdir (p : pypath) : (forall d, P (EMkdir d) = true) -> log_only I P (mkdir_exist_ok p).
Proof. intro HP. apply lo_one. intros w r w' H. unfold mkdir_exist_ok in H. one_event H. Qed.

Lemma lo_chdir (p : pypath) : (forall d, P (EChdir d) = true) -> log_only I P (chdir p).
Proof. intro HP. apply lo_one. intros w r w' H. unfold chdir in H. one_event H. Qed.

Lemma lo_write (p : pypath) (c : content) :
  (forall d x, P (EWrite d x) = true) -> log_only I P (write_file p c).
Proof. intro HP. apply lo_one. intros w r w' H. unfold write_file in H. one_event H. Qed.

Lemma lo_copy2 (src : string) (p : pypath) :
  (forall a b, P (ECopy a b) = true) -> log_only I P (copy2 src p).
Proof. intro HP. apply lo_one. intros w r w' H. unfold copy2 in H. one_event H. Qed.

Lemma lo_subprocess (args : list string) :
  (forall c x, P (ERun c args x) = true) -> log_only I P (subprocess_run args).
Proof. intro HP. apply lo_one. intros w r w' H. unfold subprocess_run in H. one_event H. Qed.

End LogOnly.

Ltac lo_side := first [ assumption | intros; reflexivity | intros; auto ].

Ltac lo_step :=
  first [ progress cbv zeta
        | match goal with
          | |- log_only _ _ (match ?x with _ => _ end) => destruct x
          | |- log_only _ _ (if ?b then _ else _) => destruct b
          end
        | apply lo_try_bare | apply lo_try | apply lo_bind
        | apply lo_ret | apply lo_raise | apply lo_sys_exit | apply lo_path_exists
        | apply lo_os_path_exists | apply lo_relpath | apply lo_now
        | apply lo_print | apply lo_input | apply lo_mkdir | apply lo_chdir
        | apply lo_write | apply lo_copy2 | apply lo_subprocess
        | match goal with |- log_only _ _ _ => fail 1 | |- _ => solve [lo_side] end
        | intro ].

Ltac lo_chain := repeat lo_step.

Lemma lo_main : log_only (fun _ => True) runs_listed main.
Proof.
  unfold main, main_body, GitLFSVideoShare, setup_repository, share_video,
    create_player_page, _get_github_url, _run_command.
  lo_chain.
Qed.

Lemma lo_path_exists_true (I : list (list string) -> Prop) (P : event -> bool) (p : pypath)
    {A} (f : bool -> M A) :
  (forall w, I (w_dirs w) -> is_dir w (resolve (w_cwd w) p) = true) ->
  log_only I P (f true) -> log_only I P (bind (path_exists p) f).
Proof.
  intros Hp Hf w r w' Iw H. unfold bind, path_exists in H. rewrite (Hp w Iw) in H.
  exact (Hf _ _ _ Iw H).
Qed.

Lemma resolve_dotgit_abs (rp : pypath) (c : list string) :
  p_abs rp = true -> resolve c (py_join rp ".git") = resolve [] rp ++ [".git"].
Proof.
  intro Ha. unfold py_join. change (parse_path ".git") with (mkPath false [".git"]). cbn [p_abs p_segs].
  rewrite resolve_app. simpl fold_left. unfold norm_step. simpl String.eqb. cbv iota.
  unfold resolve. rewrite Ha. reflexivity.
Qed.

Lemma is_dir_snoc (w : world) (l : list string) (x : string) :
  is_dir w (l ++ [x]) = existsb (list_eqb (l ++ [x])) (w_dirs w).
Proof. destruct l; reflexivity. Qed.

Lemma lo_existing_repo (repo : string) :
  p_abs (parse_path repo) = true ->
  let D := resolve [] (parse_path repo) ++ [".git"] in
  log_only (fun ds => existsb (list_eqb D) ds = true) (fun e => negb (init_event e))
    (GitLFSVideoShare repo).
Proof.
  intros Ha D.
  assert (IA : forall ds ds', existsb (list_eqb D) ds = true -> existsb (list_eqb D) (ds ++ ds') = true).
  { intros ds ds' E. rewrite existsb_app, E. reflexivity. }
  unfold GitLFSVideoShare, setup_repository. cbv zeta. cbn [repo_path videos_dir pages_dir].
  apply lo_try; [| intro; lo_chain].
  do 3 (apply lo_bind; [lo_chain | intro]).
  apply lo_path_exists_true.
  - intros w Iw. rewrite resolve_dotgit_abs by exact Ha. rewrite is_dir_snoc. exact Iw.
  - cbn [negb]. unfold _get_github_url. lo_chain.
Qed.




Lemma html_contains_title (title rel : string) :
  contains (html_content title rel) ("<title>" +++ title +++ "</title>") /\
  contains (html_content title rel) ("<h1>" +++ title +++ "</h1>").
Proof.
  unfold html_content, html_head, lines. cbn [map String.concat].
  split; apply contains_app_l; apply contains_app_r; find_line.
Qed.

(** * The claims *)

(** ** C1 *)

(** C1: from a fresh repository directory, a run of [main] given a
    missing video path has already run [git init], written
    [.gitattributes] and created [videos/] and [pages/] when it reports
    the missing file. *)
Lemma missing_video_after_setup :
  let w' := snd (main (demo_world fresh_dirs ["/home/u/repo"; "/home/u/missing.mp4"] demo_remote)) in
  fst (main (demo_world fresh_dirs ["/home/u/repo"; "/home/u/missing.mp4"] demo_remote)) = inl tt /\
  (exists l1 l2 res,
     w_log w' = l1 ++ ERun (home ++ ["repo"]) ["git"; "init"] res :: l2 /\
     In (EWrite (home ++ ["repo"; ".gitattributes"]) (CText gitattributes_text)) l2 /\
     In (EPrint notfound_msg) l2) /\
  lookup_file (w_files w') (home ++ ["repo"; ".gitattributes"]) = Some (CText gitattributes_text) /\
  In (home ++ ["repo"; "videos"]) (w_dirs w') /\ In (home ++ ["repo"; "pages"]) (w_dirs w').
Proof.
  cbv zeta. split; [vm_compute; reflexivity |].
  set (L := w_log _).
  split; [exists (firstn 6 L), (skipn 7 L), (Some (0%Z, "", ""));
          split; [vm_compute; reflexivity | split; vm_compute; tauto] |].
  split; [vm_compute; reflexivity | split; vm_compute; tauto].
Qed.

(** C1 (corrected). The video path is asked for only after the
    constructor has set up the repository.  If that path does not exist,
    the rest of [main]'s [try] block prompts, prints
    ["错误：文件不存在！"] and returns: it runs no [git] command, copies
    and writes no file and creates no directory after the setup. *)
Theorem missing_video_stops_after_setup (repo v : string) (rest : list string)
    (w w1 : world) (s : GitLFSVideoShare_obj)
    (Hc : GitLFSVideoShare repo w = (inl s, w1))
    (Hin : w_stdin w1 = v :: rest)
    (Hex : fst (os_path_exists (strip_by is_dq (strip v)) w1) = inl false) :
  exists w2, main_body repo w = (inl tt, w2) /\
    w_log w2 = w_log w1 ++ [EPrompt video_prompt; EPrint notfound_msg] /\
    w_files w2 = w_files w1 /\ w_dirs w2 = w_dirs w1 /\ w_cwd w2 = w_cwd w1.
Proof.
  unfold main_body, try_except, bind. rewrite Hc.
  unfold input. cbn [log_ev w_stdin]. rewrite Hin. cbv zeta.
  rewrite os_path_exists_pure, os_path_exists_after_input, Hex. simpl negb. cbv iota.
  eexists. split; [reflexivity |]. cbn. rewrite <- app_assoc. repeat split.
Qed.

Lemma missing_video_stops_after_setup_witness :
  match GitLFSVideoShare "/home/u/repo"
          (demo_world fresh_dirs ["/home/u/missing.mp4"] demo_remote) with
  | (inl s, w1) =>
      exists w2, main_body "/home/u/repo" (demo_world fresh_dirs ["/home/u/missing.mp4"] demo_remote)
                   = (inl tt, w2) /\
        w_log w2 = w_log w1 ++ [EPrompt video_prompt; EPrint notfound_msg] /\
        w_files w2 = w_files w1 /\ w_dirs w2 = w_dirs w1 /\ w_cwd w2 = w_cwd w1
  | (inr _, _) => False
  end.
Proof.
  destruct (GitLFSVideoShare "/home/u/repo" (demo_world fresh_dirs ["/home/u/missing.mp4"] demo_remote))
    as [[s | e] w1] eqn:E; [| vm_compute in E; discriminate E].
  pose proof E as E'. vm_compute in E'. injection E' as <- <-.
  apply (missing_video_stops_after_setup _ "/home/u/missing.mp4" [] _ _ _ E); vm_compute; reflexivity.
Defined.

(** ** C2 *)

(** C2 (corrected). After a successful [share_video], the QR image written
    to [qrcodes/<stem>_qr.png] encodes the page URL, and that URL is the
    hosting base URL, then a single ["/"], then the page's path relative
    to the repository root ([page_path.relative_to(repo_path)]). *)
Theorem qr_encodes_base_slash_relative_page (s : GitLFSVideoShare_obj) (vp : string)
    (w w' : world) (info : share_info) :
  share_video s vp w = (inl info, w') ->
  let pp := py_join (pages_dir s)
              (page_name_of (strftime (w_clock w (w_tick w))) (py_name (parse_path vp))) in
  let qp := py_join (py_join (repo_path s) "qrcodes")
              (py_stem (parse_path (py_name (parse_path vp))) +++ "_qr.png") in
  exists rel,
    relative_to pp (repo_path s) = Some rel /\
    info_page_url info = fmt_opt (github_pages_url s) +++ "/" +++ py_str rel /\
    In (EWrite (resolve (w_cwd w) qp) (CQR (info_page_url info))) (w_log w').
Proof.
  intro H. apply share_video_ok in H.
  destruct H as (rel & rs & rd & lm & ra & rc & R & U & _ & _ & _ & L & _).
  exists rel. split; [exact R |]. split; [exact U |].
  rewrite L, !in_app_iff. right. right. right. left. reflexivity.
Qed.

Lemma qr_encodes_base_slash_relative_page_witness :
  match share_video demo_sharer "/home/u/clip.mp4" share_world with
  | (inl info, w') =>
      let pp := py_join (pages_dir demo_sharer)
                  (page_name_of (strftime (w_clock share_world (w_tick share_world)))
                     (py_name (parse_path "/home/u/clip.mp4"))) in
      let qp := py_join (py_join (repo_path demo_sharer) "qrcodes")
                  (py_stem (parse_path (py_name (parse_path "/home/u/clip.mp4"))) +++ "_qr.png") in
      exists rel,
        relative_to pp (repo_path demo_sharer) = Some rel /\
        info_page_url info = fmt_opt (github_pages_url demo_sharer) +++ "/" +++ py_str rel /\
        In (EWrite (resolve (w_cwd share_world) qp) (CQR (info_page_url info))) (w_log w')
  | (inr _, _) => False
  end.
Proof.
  destruct (share_video demo_sharer "/home/u/clip.mp4" share_world) as [[info | e] w'] eqn:E.
  - exact (qr_encodes_base_slash_relative_page _ _ _ _ _ E).
  - vm_compute in E. discriminate E.
Defined.

(** C2: the QR content is not the bare concatenation of the base URL and
    the relative page path. *)
Lemma qr_not_bare_concatenation :
  match share_video demo_sharer "/home/u/clip.mp4" share_world with
  | (inl info, w') =>
      lookup_file (w_files w') (home ++ ["repo"; "qrcodes"; "clip_qr.png"])
        = Some (CQR "https://alice.github.io/site/pages/20261018_120000_clip.html") /\
      info_page_url info <> "https://alice.github.io/site" +++ "pages/20261018_120000_clip.html"
  | (inr _, _) => False
  end.
Proof. vm_compute. split; [reflexivity | discriminate]. Qed.

(** ** C3 *)

(** C3 (corrected). [create_player_page] names the page
    [<YYYYmmdd_HHMMSS>_<stem>.html] from the clock reading and the stem of
    the title (the video's file name without its last extension); the
    name contains the timestamp and the stem, and two readings of the clock
    that differ (in any field down to the second) give different page
    names, whatever the titles. *)
Theorem page_name_timestamp_stem_unique (dt1 dt2 : datetime) (t1 t2 : string) :
  dt_valid dt1 -> dt_valid dt2 ->
  (forall self vp w pp w1, create_player_page self vp t1 w = (inl pp, w1) ->
     pp = py_join (pages_dir self) (page_name_of (strftime (w_clock w (w_tick w))) t1)) /\
  page_name_of (strftime dt1) t1 = strftime dt1 +++ "_" +++ py_stem (parse_path t1) +++ ".html" /\
  contains (page_name_of (strftime dt1) t1) (strftime dt1) /\
  contains (page_name_of (strftime dt1) t1) (py_stem (parse_path t1)) /\
  (dt1 <> dt2 -> page_name_of (strftime dt1) t1 <> page_name_of (strftime dt2) t2).
Proof.
  intros V1 V2. split; [| split; [| split; [| split]]].
  - intros self vp w pp w1 H. apply create_player_page_ok in H as (-> & _). reflexivity.
  - reflexivity.
  - exists "", ("_" +++ py_stem (parse_path t1) +++ ".html"). reflexivity.
  - exists (strftime dt1 +++ "_"), ".html". unfold page_name_of. now rewrite !sappend_assoc.
  - intro Hne. exact (page_name_distinct dt1 dt2 t1 t2 V1 V2 Hne).
Qed.

Lemma page_name_timestamp_stem_unique_witness :
  dt_valid (demo_clock 0) /\ dt_valid (demo_clock 1) /\
  page_name_of (strftime (demo_clock 0)) "clip.mp4"
    <> page_name_of (strftime (demo_clock 1)) "clip.mp4".
Proof.
  assert (V0 : dt_valid (demo_clock 0)) by (unfold dt_valid; simpl; lia).
  assert (V1 : dt_valid (demo_clock 1)) by (unfold dt_valid; simpl; lia).
  split; [exact V0 | split; [exact V1 |]].
  apply (page_name_timestamp_stem_unique (demo_clock 0) (demo_clock 1) "clip.mp4" "clip.mp4" V0 V1).
  discriminate.
Defined.

(** C3: the page name does not contain the video's file name itself when
    that name has an extension. *)
Lemma page_name_lacks_video_filename :
  ~ contains (page_name_of (strftime (demo_clock 0)) "clip.mp4") "clip.mp4".
Proof. intro H. apply contains_substringb in H. vm_compute in H. discriminate H. Qed.

(** ** C4 *)

(** C4 (confirmed). For an object built by the constructor and a video
    whose file name is an ordinary name, a successful [share_video] writes
    a page whose [<source>] element has [src="/videos/<name>"]: a slash and
    the copied video's path relative to the repository root. *)
Theorem page_refers_video_by_repo_relative_path (r vp : string) (s : GitLFSVideoShare_obj)
    (w0 w1 w w' : world) (info : share_info) :
  GitLFSVideoShare r w0 = (inl s, w1) ->
  share_video s vp w = (inl info, w') ->
  py_name (parse_path vp) <> "" -> py_name (parse_path vp) <> ".." ->
  let n := py_name (parse_path vp) in
  let pp := py_join (pages_dir s) (page_name_of (strftime (w_clock w (w_tick w))) n) in
  os_relpath (w_cwd w) (py_join (videos_dir s) n) (repo_path s) = "videos/" +++ n /\
  In (EWrite (resolve (w_cwd w) pp) (CText (html_content n ("videos/" +++ n)))) (w_log w') /\
  contains (html_content n ("videos/" +++ n)) (source_tag ("videos/" +++ n)).
Proof.
  intros Hc Hs Hne Hdd n pp.
  apply constructor_fields in Hc as (HR & HV & _).
  assert (Rel : os_relpath (w_cwd w) (py_join (videos_dir s) n) (repo_path s) = "videos/" +++ n).
  { rewrite HV, HR. apply relpath_video; [apply py_name_component; exact Hne | exact Hdd]. }
  split; [exact Rel | split; [| apply html_contains_source_tag]].
  apply share_video_ok in Hs.
  destruct Hs as (rel & rs & rd & lm & ra & rc & _ & _ & _ & _ & _ & L & _).
  rewrite L. fold n. fold pp. rewrite Rel. rewrite !in_app_iff. right. left. right. left.
  reflexivity.
Qed.

Lemma page_refers_video_by_repo_relative_path_witness :
  match GitLFSVideoShare "/home/u/repo" (demo_world inited_dirs [] demo_remote) with
  | (inl s, w1) =>
      match share_video s "/home/u/clip.mp4" w1 with
      | (inl info, w') =>
          let n := py_name (parse_path "/home/u/clip.mp4") in
          let pp := py_join (pages_dir s) (page_name_of (strftime (w_clock w1 (w_tick w1))) n) in
          os_relpath (w_cwd w1) (py_join (videos_dir s) n) (repo_path s) = "videos/" +++ n /\
          In (EWrite (resolve (w_cwd w1) pp) (CText (html_content n ("videos/" +++ n))))
            (w_log w') /\
          contains (html_content n ("videos/" +++ n)) (source_tag ("videos/" +++ n))
      | (inr _, _) => False
      end
  | (inr _, _) => False
  end.
Proof.
  destruct (GitLFSVideoShare "/home/u/repo" (demo_world inited_dirs [] demo_remote))
    as [[s | e] w1] eqn:E1; [| vm_compute in E1; discriminate E1].
  pose proof E1 as E1'. vm_compute in E1'. injection E1' as <- <-.
  match goal with |- match share_video ?s ?v ?w with _ => _ end =>
    destruct (share_video s v w) as [[info | e] w'] eqn:E2 end;
    [| vm_compute in E2; discriminate E2].
  apply (page_refers_video_by_repo_relative_path _ _ _ _ _ _ _ _ E1 E2);
    vm_compute; discriminate.
Defined.

(** ** C5 *)

(** C5 (code bug). Run twice from [/home/u] with the relative repository
    path ["repo"], the constructor reinitialises the repository the second
    time although [/home/u/repo/.git] exists: the [.git] test runs after
    [os.chdir(repo)] and looks at [repo/repo/.git].  With the absolute path
    the second run does not run [git init]. *)
Theorem relative_repo_reinitialized_on_second_run :
  let w0 := demo_world fresh_dirs [] demo_remote in
  let w1 := set_cwd (snd (GitLFSVideoShare "repo" w0)) home in
  let w2 := snd (GitLFSVideoShare "repo" w1) in
  is_dir w1 (home ++ ["repo"; ".git"]) = true /\
  In (ERun (home ++ ["repo"]) ["git"; "init"] (Some (0%Z, "", ""))) (skipn (length (w_log w1)) (w_log w2)) /\
  In (EWrite (home ++ ["repo"; ".gitattributes"]) (CText gitattributes_text))
    (skipn (length (w_log w1)) (w_log w2)) /\
  In (ERun (home ++ ["repo"]) ["git"; "lfs"; "install"] (Some (0%Z, "", "")))
    (skipn (length (w_log w1)) (w_log w2)) /\
  (let a1 := set_cwd (snd (GitLFSVideoShare "/home/u/repo" w0)) home in
   let a2 := snd (GitLFSVideoShare "/home/u/repo" a1) in
   ~ In (ERun (home ++ ["repo"]) ["git"; "init"] (Some (0%Z, "", "")))
       (skipn (length (w_log a1)) (w_log a2))).
Proof.
  cbv zeta. split; [vm_compute; reflexivity |].
  split; [vm_compute; tauto |]. split; [vm_compute; tauto |]. split; [vm_compute; tauto |].
  vm_compute. intro H. repeat (destruct H as [H | H]; [discriminate H |]). exact H.
Qed.

(** ** C6 *)

(** C6 (code bug). The remote URL rewriting does not produce the pages
    URL [https://alice.github.io/site] of the GitHub repository
    [alice/site] that the program's own prompt describes: the HTTPS remote
    becomes [https://github.io/alice/site] and the SSH remote
    [https://alice/site].  When [git config] fails, the URL typed at the
    prompt is used. *)
Theorem remote_url_rewriting_misses_pages_host :
  github_pages_of_remote "https://github.com/alice/site.git" = "https://github.io/alice/site" /\
  github_pages_of_remote "https://github.com/alice/site" = "https://github.io/alice/site" /\
  github_pages_of_remote "git@github.com:alice/site.git" = "https://alice/site" /\
  github_pages_of_remote "git@github.com:alice/site" = "https://alice/site" /\
  fst (_get_github_url (set_cwd (demo_world inited_dirs [] demo_remote) (home ++ ["repo"]))) =
    inl "https://github.io/alice/site" /\
  fst (_get_github_url (set_cwd (demo_world inited_dirs ["https://alice.github.io/site"] None)
                          (home ++ ["repo"]))) = inl "https://alice.github.io/site".
Proof. repeat split; vm_compute; reflexivity. Qed.

(** ** C7 *)

(** C7 (confirmed). When [git] reports an exit status, [_run_command]
    raises exactly when that status is non-zero and otherwise returns the
    stripped standard output (a [git] that cannot be started raises as
    well).  A failed command ([git init], [git lfs install], [git add .],
    [git commit]) is fatal: [share_video] and the constructor then end in
    an exception and log nothing but messages after it, and in a whole run
    of [main] nothing but messages follows a failed command. *)
Theorem run_command_raises_iff_nonzero_and_is_fatal (cmd : list string) (w : world)
    (rc : Z) (out err : string) (G : w_git w cmd (w_cwd w) = Some (rc, out, err)) :
  fst (_run_command cmd w) =
    (if Z.eqb rc 0 then inl (strip out) else inr (PyExc ("命令失败: " +++ err))) /\
  (forall s vp, fail_stop (share_video s vp)) /\
  (forall repo, fail_stop (GitLFSVideoShare repo)) /\
  fail_stop_log main.
Proof.
  split; [| split; [exact fail_stop_share_video | split; [exact fail_stop_constructor | exact fail_stop_log_main]]].
  unfold _run_command, bind, subprocess_run. rewrite G. cbv zeta.
  destruct (_ && _ && _); destruct (Z.eqb rc 0); reflexivity.
Qed.

Lemma run_command_raises_iff_nonzero_and_is_fatal_witness :
  w_git share_world ["git"; "add"; "."] (w_cwd share_world) = Some (0%Z, "", "") /\
  fst (_run_command ["git"; "add"; "."] share_world) =
    (if Z.eqb 0 0 then inl (strip "") else inr (PyExc ("命令失败: " +++ ""))) /\
  (forall s vp, fail_stop (share_video s vp)) /\
  (forall repo, fail_stop (GitLFSVideoShare repo)) /\
  fail_stop_log main.
Proof.
  split; [reflexivity |].
  apply (run_command_raises_iff_nonzero_and_is_fatal _ share_world 0%Z "" ""). reflexivity.
Defined.

(** ** C8 *)

(** C8: sharing a video named [clip.mp4] a second time rewrites
    [qrcodes/clip_qr.png] with another URL and copies over
    [videos/clip.mp4]. *)
Lemma second_share_overwrites_qr_and_copy :
  let w1 := snd (share_video demo_sharer "/home/u/clip.mp4" share_world) in
  let w2 := snd (share_video demo_sharer "/home/u/clip.mp4" w1) in
  let qr := home ++ ["repo"; "qrcodes"; "clip_qr.png"] in
  (exists i1, fst (share_video demo_sharer "/home/u/clip.mp4" share_world) = inl i1) /\
  (exists i2, fst (share_video demo_sharer "/home/u/clip.mp4" w1) = inl i2) /\
  lookup_file (w_files w1) qr =
    Some (CQR "https://alice.github.io/site/pages/20261018_120000_clip.html") /\
  lookup_file (w_files w2) qr =
    Some (CQR "https://alice.github.io/site/pages/20261018_120001_clip.html") /\
  In (EWrite qr (CQR "https://alice.github.io/site/pages/20261018_120001_clip.html"))
    (skipn (length (w_log w1)) (w_log w2)) /\
  In (ECopy (home ++ ["clip.mp4"]) (home ++ ["repo"; "videos"; "clip.mp4"]))
    (skipn (length (w_log w1)) (w_log w2)).
Proof.
  cbv zeta. split; [eexists; vm_compute; reflexivity |].
  split; [eexists; vm_compute; reflexivity |].
  split; [vm_compute; reflexivity |]. split; [vm_compute; reflexivity |].
  split; vm_compute; tauto.
Qed.

(** C8 (corrected). A successful [share_video] writes exactly three
    files, in this order: the copy of the video at [videos/<name>] (at
    [videos/<name>/<name>] when that is a directory), one page
    [pages/<timestamp>_<stem>.html] and one QR image
    [qrcodes/<stem>_qr.png].  Each write replaces what the path held:
    afterwards the QR image holds the new URL and, unless the page or
    the QR image lands on the same path, the copy holds the source's
    content.  Only the page name carries a timestamp, so a later share
    of a video with the same name rewrites the copy and the QR image. *)
Theorem share_writes_copy_page_and_qr (s : GitLFSVideoShare_obj) (vp : string) (w w' : world)
    (info : share_info) (H : share_video s vp w = (inl info, w')) :
  let c := w_cwd w in
  let n := py_name (parse_path vp) in
  let target := py_join (videos_dir s) n in
  let pp := py_join (pages_dir s) (page_name_of (strftime (w_clock w (w_tick w))) n) in
  let qp := py_join (py_join (repo_path s) "qrcodes") (py_stem (parse_path n) +++ "_qr.png") in
  let rd := copy_dest w vp target in
  let page := CText (html_content n (os_relpath c target (repo_path s))) in
  (is_dir w (resolve c target) = false -> rd = resolve c target) /\
  exists csrc l,
    lookup_file (w_files w) (resolve c (parse_path vp)) = Some csrc /\
    w_log w' = w_log w ++ l /\
    filter is_file_event l =
      [ECopy (resolve c (parse_path vp)) rd; EWrite (resolve c pp) page;
       EWrite (resolve c qp) (CQR (info_page_url info))] /\
    w_files w' =
      store_file (store_file (store_file (w_files w) rd csrc) (resolve c pp) page)
        (resolve c qp) (CQR (info_page_url info)) /\
    lookup_file (w_files w') (resolve c qp) = Some (CQR (info_page_url info)) /\
    (rd <> resolve c pp -> rd <> resolve c qp -> lookup_file (w_files w') rd = Some csrc).
Proof.
  pose proof (share_video_files _ _ _ _ _ H) as Hf.
  apply share_video_ok in H. cbv zeta in *.
  destruct H as (rel & rs & rd & lm & ra & rc & _ & _ & _ & _ & Hlm & L & _).
  destruct Hf as (csrc & Lk & F & l & L').
  split; [unfold copy_dest; intros ->; reflexivity |].
  rewrite L' in L. apply app_inv_head in L. injection L as _ _ L.
  exists csrc. eexists. split; [exact Lk |]. split; [rewrite L'; reflexivity |].
  split; [rewrite L; destruct Hlm as [-> | ->]; reflexivity |].
  split; [exact F |]. split.
  - rewrite F. apply lookup_store_same.
  - intros N1 N2. rewrite F, !lookup_store_other by (apply not_eq_sym; assumption).
    apply lookup_store_same.
Qed.

Lemma share_writes_copy_page_and_qr_witness :
  match share_video demo_sharer "/home/u/clip.mp4" share_world with
  | (inl info, w') =>
      let c := w_cwd share_world in
      let n := py_name (parse_path "/home/u/clip.mp4") in
      let target := py_join (videos_dir demo_sharer) n in
      let pp := py_join (pages_dir demo_sharer) (page_name_of (strftime (w_clock share_world (w_tick share_world))) n) in
      let qp := py_join (py_join (repo_path demo_sharer) "qrcodes") (py_stem (parse_path n) +++ "_qr.png") in
      let rd := copy_dest share_world "/home/u/clip.mp4" target in
      let page := CText (html_content n (os_relpath c target (repo_path demo_sharer))) in
      (is_dir share_world (resolve c target) = false -> rd = resolve c target) /\
      exists csrc l,
        lookup_file (w_files share_world) (resolve c (parse_path "/home/u/clip.mp4")) = Some csrc /\
        w_log w' = w_log share_world ++ l /\
        filter is_file_event l =
          [ECopy (resolve c (parse_path "/home/u/clip.mp4")) rd; EWrite (resolve c pp) page;
           EWrite (resolve c qp) (CQR (info_page_url info))] /\
        w_files w' =
          store_file (store_file (store_file (w_files share_world) rd csrc) (resolve c pp) page)
            (resolve c qp) (CQR (info_page_url info)) /\
        lookup_file (w_files w') (resolve c qp) = Some (CQR (info_page_url info)) /\
        (rd <> resolve c pp -> rd <> resolve c qp -> lookup_file (w_files w') rd = Some csrc)
  | (inr _, _) => False
  end.
Proof.
  destruct (share_video demo_sharer "/home/u/clip.mp4" share_world) as [[info | e] w'] eqn:E.
  - exact (share_writes_copy_page_and_qr _ _ _ _ _ E).
  - vm_compute in E. discriminate E.
Defined.

(** ** C9 *)

(** C9 (confirmed). Whatever the video (an [.mkv] or [.mov] file
    included), the page a successful [share_video] writes declares its
    [<source>] with the fixed type ["video/mp4"]. *)
Theorem page_source_type_is_mp4 (s : GitLFSVideoShare_obj) (vp : string) (w w' : world)
    (info : share_info) :
  share_video s vp w = (inl info, w') ->
  exists p rel,
    In (EWrite p (CText (html_content (py_name (parse_path vp)) rel))) (w_log w') /\
    contains (html_content (py_name (parse_path vp)) rel)
      ("<source src=" +++ q ("/" +++ rel) +++ " type=" +++ q "video/mp4" +++ ">").
Proof.
  intro H. apply share_video_ok in H.
  destruct H as (rel & rs & rd & lm & ra & rc & _ & _ & _ & _ & _ & L & _).
  eexists; eexists; split.
  - rewrite L, !in_app_iff. right. left. right. left. reflexivity.
  - apply html_contains_source_tag.
Qed.

Lemma page_source_type_is_mp4_witness :
  match share_video demo_sharer "/home/u/clip.mkv" share_world with
  | (inl info, w') =>
      exists p rel,
        In (EWrite p (CText (html_content (py_name (parse_path "/home/u/clip.mkv")) rel)))
          (w_log w') /\
        contains (html_content (py_name (parse_path "/home/u/clip.mkv")) rel)
          ("<source src=" +++ q ("/" +++ rel) +++ " type=" +++ q "video/mp4" +++ ">")
  | (inr _, _) => False
  end.
Proof.
  destruct (share_video demo_sharer "/home/u/clip.mkv" share_world) as [[info | e] w'] eqn:E.
  - exact (page_source_type_is_mp4 _ _ _ _ _ E).
  - vm_compute in E. discriminate E.
Defined.

(** ** C10 *)

(** C10 (confirmed). A successful constructor leaves the process in the
    repository directory (the repository path resolved against the
    directory the program started in); [share_video] never leaves the
    directory it starts in; and in a whole run of [main], every [git]
    command runs in, and every [chdir] goes to, the repository typed at
    the first prompt, where the run also ends unless it stopped before
    [os.chdir]. *)
Theorem chdir_into_repository_persists (repo : string) (w w1 : world) (s : GitLFSVideoShare_obj)
    (H : GitLFSVideoShare repo w = (inl s, w1)) :
  w_cwd w1 = resolve (w_cwd w) (parse_path repo) /\
  (forall vp, keeps_cwd (share_video s vp)) /\
  (forall w0 r rest res w', w_stdin w0 = r :: rest -> main w0 = (res, w') ->
     let d := resolve (w_cwd w0) (parse_path (strip r)) in
     (w_cwd w' = w_cwd w0 \/ w_cwd w' = d) /\
     exists l, w_log w' = w_log w0 ++ l /\ Forall (cwd_ok d) l).
Proof.
  split; [exact (proj1 (proj2 (enters_constructor repo w _ _ H)) s eq_refl) |].
  split; [intro; apply keeps_share_video |].
  intros w0 r rest res w' Hin Hm. cbv zeta.
  unfold main, bind, print, emit, input in Hm. cbn [log_ev w_stdin] in Hm. rewrite Hin in Hm.
  destruct (enters_main_body (strip r) _ _ _ Hm) as (C & l & L & F).
  cbn [set_stdin log_ev w_cwd w_log] in C, L, F.
  split; [exact C |]. exists ([EPrint ("=== GitHub LFS 视频分享工具 ===" +++ nl);
                              EPrompt "请输入GitHub仓库本地路径: "] ++ l).
  split; [rewrite L, <- !app_assoc; reflexivity |].
  apply Forall_app. split; [all_cwd_ok | exact F].
Qed.

Lemma chdir_into_repository_persists_witness :
  match GitLFSVideoShare "/home/u/repo" (demo_world inited_dirs [] demo_remote) with
  | (inl s, w1) =>
      w_cwd w1 = resolve (w_cwd (demo_world inited_dirs [] demo_remote)) (parse_path "/home/u/repo") /\
      (forall vp, keeps_cwd (share_video s vp)) /\
      (forall w0 r rest res w', w_stdin w0 = r :: rest -> main w0 = (res, w') ->
         let d := resolve (w_cwd w0) (parse_path (strip r)) in
         (w_cwd w' = w_cwd w0 \/ w_cwd w' = d) /\
         exists l, w_log w' = w_log w0 ++ l /\ Forall (cwd_ok d) l)
  | (inr _, _) => False
  end.
Proof.
  destruct (GitLFSVideoShare "/home/u/repo" (demo_world inited_dirs [] demo_remote))
    as [[s | e] w1] eqn:E.
  - exact (chdir_into_repository_persists _ _ _ _ E).
  - vm_compute in E. discriminate E.
Defined.

(* ================================================================== *)
(** * Further properties *)

(** ** X1 *)

(** X1. A remote URL that does not contain [github.com] is used as it
    is, apart from dropping a final [.git]: neither the SSH rewriting
    nor the host replacement applies. *)
Theorem non_github_remote_kept (u : string) :
  substringb "github.com" u = false ->
  github_pages_of_remote u =
    (if endswith u ".git" then substring 0 (String.length u - 4) u else u).
Proof.
  intro H. unfold github_pages_of_remote.
  set (u1 := if endswith u ".git" then _ else u).
  assert (H1 : substringb "github.com" u1 = false)
    by (unfold u1; destruct (endswith u ".git"); [apply substringb_substring |]; exact H).
  assert (H2 : startswith u1 "git@github.com:" = false).
  { destruct (startswith u1 "git@github.com:") eqn:E; [| reflexivity].
    unfold startswith in E.
    assert (G : substringb "github.com" "git@github.com:" = true) by reflexivity.
    rewrite (substringb_prefix _ _ _ G E) in H1. discriminate H1. }
  rewrite H2. unfold replace. apply replace_fuel_absent. exact H1.
Qed.

Lemma non_github_remote_kept_witness :
  substringb "github.com" "https://gitlab.com/alice/site.git" = false /\
  github_pages_of_remote "https://gitlab.com/alice/site.git" =
    (if endswith "https://gitlab.com/alice/site.git" ".git"
     then substring 0 (String.length "https://gitlab.com/alice/site.git" - 4)
            "https://gitlab.com/alice/site.git"
     else "https://gitlab.com/alice/site.git").
Proof.
  split; [reflexivity |]. apply non_github_remote_kept. reflexivity.
Defined.

(** ** X2 *)

(** X2. When [git config --get remote.origin.url] exits with status 0,
    [_get_github_url] returns the rewritten remote URL. It runs that one
    command and asks nothing. *)
Theorem github_url_from_remote (w : world) (out err : string)
    (Hg : w_git w config_args (w_cwd w) = Some (0%Z, out, err)) :
  _get_github_url w =
  (inl (github_pages_of_remote (strip out)),
   log_ev w (ERun (w_cwd w) config_args (Some (0%Z, out, err)))).
Proof.
  unfold _get_github_url, try_bare, bind, subprocess_run. fold config_args. rewrite Hg.
  reflexivity.
Qed.

Lemma github_url_from_remote_witness :
  let w := demo_world inited_dirs [] demo_remote in
  _get_github_url w =
  (inl (github_pages_of_remote (strip "https://github.com/alice/site.git")),
   log_ev w (ERun (w_cwd w) config_args (Some (0%Z, "https://github.com/alice/site.git", "")))).
Proof. intro w. apply github_url_from_remote. reflexivity. Defined.

(** ** X3 *)

(** X3. When [git config --get remote.origin.url] cannot be started or
    exits with a non-zero status, [_get_github_url] prompts for the URL
    and returns the line read, stripped. *)
Theorem github_url_prompted_when_config_fails (w : world) (line : string) (rest : list string)
    (Hg : match w_git w config_args (w_cwd w) with
          | Some (rc, _, _) => rc <> 0%Z
          | None => True
          end)
    (Hin : w_stdin w = line :: rest) :
  _get_github_url w =
  (inl (strip line),
   set_stdin (log_ev (log_ev w (ERun (w_cwd w) config_args (w_git w config_args (w_cwd w))))
                (EPrompt url_prompt)) rest).
Proof.
  unfold _get_github_url, try_bare, bind, subprocess_run, input. fold config_args.
  destruct (w_git w config_args (w_cwd w)) as [[[rc o] e] |] eqn:G.
  - apply Z.eqb_neq in Hg. rewrite Hg. cbn [andb list_eqb String.eqb]. unfold ret.
    change (list_eqb config_args ["git"; "init"]) with false. cbn [andb w_stdin log_ev].
    rewrite Hin. reflexivity.
  - unfold ret. cbv beta iota. cbn [w_stdin log_ev]. rewrite Hin. reflexivity.
Qed.

Lemma github_url_prompted_when_config_fails_witness :
  let w := demo_world inited_dirs [" https://alice.github.io/site "] None in
  _get_github_url w =
  (inl (strip " https://alice.github.io/site "),
   set_stdin (log_ev (log_ev w (ERun (w_cwd w) config_args (w_git w config_args (w_cwd w))))
                (EPrompt url_prompt)) []).
Proof. intro w. apply github_url_prompted_when_config_fails; [vm_compute; lia | reflexivity]. Defined.

(** ** X4 *)

(** X4. The constructor either returns an object whose
    [github_pages_url] is set, or ends in [SystemExit(1)] right after
    printing the setup failure message. It never lets an [Exception]
    escape. *)
Theorem constructor_returns_url_or_exits (repo : string) (w : world) :
  match GitLFSVideoShare repo w with
  | (inl s, _) => exists url, github_pages_url s = Some url
  | (inr e, w') => e = SysExit 1 /\
      exists msg w1, w' = log_ev w1 (EPrint ("仓库设置失败: " +++ msg))
  end.
Proof.
  unfold GitLFSVideoShare, setup_repository, try_except. cbv zeta.
  match goal with
  | |- match (match ?m w with _ => _ end) with _ => _ end =>
      assert (Pm : pyexc_only m) by px_chain;
      destruct (m w) as [[a | [s | c]] w1] eqn:B
  end.
  - repeat inv_bind B. unfold ret in B. injection B as <- _. eexists. reflexivity.
  - cbn. split; [reflexivity |]. exists s, w1. reflexivity.
  - destruct (Pm _ _ _ B) as [s Hs]. discriminate Hs.
Qed.

(** ** X5 *)

(** X5. For an absolute repository path whose [.git] directory exists,
    the constructor does not print the initialisation message, run [git
    init] or [git lfs install], or write any file. *)
Theorem existing_absolute_repository_not_reinitialized (repo : string) (w : world)
    (Ha : p_abs (parse_path repo) = true)
    (Hg : is_dir w (resolve [] (parse_path repo) ++ [".git"]) = true) :
  exists l, w_log (snd (GitLFSVideoShare repo w)) = w_log w ++ l /\
    Forall (fun e => init_event e = false) l.
Proof.
  destruct (GitLFSVideoShare repo w) as [r w'] eqn:E.
  rewrite is_dir_snoc in Hg.
  destruct (lo_existing_repo repo Ha w r w' Hg E) as (_ & l & L & F).
  exists l. split; [exact L |]. apply (Forall_impl _ (fun e He => proj1 (negb_true_iff _) He) F).
Qed.

Lemma existing_absolute_repository_not_reinitialized_witness :
  exists l, w_log (snd (GitLFSVideoShare "/home/u/repo" (demo_world inited_dirs [] demo_remote))) =
    w_log (demo_world inited_dirs [] demo_remote) ++ l /\ Forall (fun e => init_event e = false) l.
Proof. apply existing_absolute_repository_not_reinitialized; reflexivity. Defined.

(** ** X6 *)



(** ** X7 *)

(** X7. A successful share writes its page at
    [pages/<timestamp>_<stem>.html], the path it reports, and the page
    names the video by its file name, unescaped, in both its [<title>]
    and its [<h1>] element. *)
Theorem shared_page_titled_by_video_name (s : GitLFSVideoShare_obj) (vp : string)
    (w w' : world) (info : share_info) :
  share_video s vp w = (inl info, w') ->
  let n := py_name (parse_path vp) in
  let pp := py_join (pages_dir s) (page_name_of (strftime (w_clock w (w_tick w))) n) in
  info_page_path info = py_str pp /\
  exists page, In (EWrite (resolve (w_cwd w) pp) (CText page)) (w_log w') /\
    contains page ("<title>" +++ n +++ "</title>") /\ contains page ("<h1>" +++ n +++ "</h1>").
Proof.
  intro H. apply share_video_ok in H. cbv zeta in H |- *.
  destruct H as (rel & rs & rd & lm & ra & rc & _ & _ & Hp & _ & _ & L & _).
  split; [exact Hp |]. eexists; split.
  - rewrite L, !in_app_iff. right. left. right. left. reflexivity.
  - apply html_contains_title.
Qed.

Lemma shared_page_titled_by_video_name_witness :
  match share_video demo_sharer "/home/u/clip.mkv" share_world with
  | (inl info, w') =>
      let n := py_name (parse_path "/home/u/clip.mkv") in
      let pp := py_join (pages_dir demo_sharer)
                  (page_name_of (strftime (w_clock share_world (w_tick share_world))) n) in
      info_page_path info = py_str pp /\
      exists page, In (EWrite (resolve (w_cwd share_world) pp) (CText page)) (w_log w') /\
        contains page ("<title>" +++ n +++ "</title>") /\ contains page ("<h1>" +++ n +++ "</h1>")
  | (inr _, _) => False
  end.
Proof.
  destruct (share_video demo_sharer "/home/u/clip.mkv" share_world) as [[info | e] w'] eqn:E.
  - exact (shared_page_titled_by_video_name _ _ _ _ _ E).
  - vm_compute in E. discriminate E.
Defined.

(** ** X8 *)

(** X8. Every error [share_video] raises is an [Exception] whose message
    starts with the prefix it adds; it never raises [SystemExit]. *)
Theorem share_video_errors_prefixed (s : GitLFSVideoShare_obj) (vp : string) (w : world) :
  match share_video s vp w with
  | (inr e, _) => exists msg, e = PyExc ("分享失败: " +++ msg)
  | (inl _, _) => True
  end.
Proof.
  destruct (share_video s vp w) as [[a | e] w'] eqn:E; [exact I |].
  revert E. unfold share_video. intro H. eapply try_reraise; [| exact H]. px_chain.
Qed.

(** ** X9 *)



(** ** X10 *)



(** ** X11 *)

(** X11. When the input is empty at the first prompt, [main] ends with
    the uncaught [EOFError] after the banner and the prompt. *)
Theorem main_eof_at_repository_prompt (w : world) (Hin : w_stdin w = []) :
  main w = (inr (PyExc "EOF when reading a line"),
            log_ev (log_ev w (EPrint ("=== GitHub LFS 视频分享工具 ===" +++ nl)))
              (EPrompt "请输入GitHub仓库本地路径: ")).
Proof. unfold main, bind, print, emit, input. cbn [w_stdin log_ev]. rewrite Hin. reflexivity. Qed.

Lemma main_eof_at_repository_prompt_witness :
  let w := demo_world fresh_dirs [] None in
  main w = (inr (PyExc "EOF when reading a line"),
            log_ev (log_ev w (EPrint ("=== GitHub LFS 视频分享工具 ===" +++ nl)))
              (EPrompt "请输入GitHub仓库本地路径: ")).
Proof. intro w. apply main_eof_at_repository_prompt. reflexivity. Defined.

(** ** X12 *)

(** X12. The [try] block of [main] with its handler only ends in an
    exception when the constructor exits. It then ends with
    [SystemExit(1)] in the constructor's final state, before the video
    prompt. *)
Theorem main_body_raises_only_on_setup_exit (repo : string) (w : world) :
  match main_body repo w with
  | (inl _, _) => True
  | (inr e, w') => e = SysExit 1 /\ GitLFSVideoShare repo w = (inr (SysExit 1), w')
  end.
Proof.
  unfold main_body, try_except.
  match goal with
  | |- match (match bind ?c ?k w with _ => _ end) with _ => _ end =>
      assert (Pk : forall a, pyexc_only (k a)) by (intro; px_chain); set (kk := k) in *
  end.
  unfold bind at 1. destruct (GitLFSVideoShare repo w) as [[s | e] w1] eqn:G.
  - destruct (kk s w1) as [[u | [m | c]] w2] eqn:B; [exact I | reflexivity |].
    destruct (Pk s _ _ _ B) as [m Hm]. discriminate Hm.
  - pose proof (constructor_raises_exit _ _ _ _ G) as ->. split; reflexivity.
Qed.

(** ** X13 *)

(** X13. End of input at the video prompt is caught by [main]'s handler
    and printed as an error. *)
Theorem main_body_eof_at_video_prompt (repo : string) (w w1 : world) (s : GitLFSVideoShare_obj)
    (Hc : GitLFSVideoShare repo w = (inl s, w1)) (Hin : w_stdin w1 = []) :
  main_body repo w =
  (inl tt, log_ev (log_ev w1 (EPrompt video_prompt)) (EPrint (nl +++ "错误：" +++ "EOF when reading a line"))).
Proof.
  unfold main_body, try_except, bind at 1. rewrite Hc.
  unfold bind, input, print, emit. cbn [w_stdin log_ev]. rewrite Hin. reflexivity.
Qed.

Lemma main_body_eof_at_video_prompt_witness :
  let w := demo_world inited_dirs [] demo_remote in
  exists s w1, GitLFSVideoShare "/home/u/repo" w = (inl s, w1) /\ w_stdin w1 = [] /\
    main_body "/home/u/repo" w =
    (inl tt, log_ev (log_ev w1 (EPrompt video_prompt))
               (EPrint (nl +++ "错误：" +++ "EOF when reading a line"))).
Proof.
  intro w. destruct (GitLFSVideoShare "/home/u/repo" w) as [[s | e] w1] eqn:E;
    [| vm_compute in E; discriminate E].
  assert (Hin : w_stdin w1 = []) by (vm_compute in E; injection E as _ <-; reflexivity).
  exists s, w1. split; [reflexivity | split; [exact Hin |]].
  exact (main_body_eof_at_video_prompt _ _ _ _ E Hin).
Defined.

(** ** X14 *)



(** ** X15 *)



(** ** X16 *)

(** X16. A run of [main] executes only [git init], [git lfs install],
    [git config --get remote.origin.url], [git add .] and [git commit -m
    ...]; in particular it never runs [git push]. *)
Theorem main_runs_only_listed_git_commands (w : world) :
  exists l, w_log (snd (main w)) = w_log w ++ l /\ Forall (fun e => runs_listed e = true) l.
Proof.
  destruct (main w) as [r w'] eqn:E.
  destruct (lo_main w r w' I E) as (_ & l & L & F). exists l. split; assumption.
Qed.

